(** * A contact book with phones and birthdays: model and properties

  Shallow embedding of [task_one.py]: the field validators [Phone] and
  [Birthday], the [Record] of one contact, the [AddressBook] keyed by
  name with its upcoming-birthday query, and the command handlers
  wrapped by [input_error].

  Python text is a sequence of Unicode code points, integers are
  unbounded, objects mutated in place are threaded as explicit state,
  and a raised exception is the [Raise] branch of a result. *)

From Stdlib Require Import String Ascii ZArith NArith List Lia Bool.
Import ListNotations.

Local Open Scope N_scope.

(** ** Python text, exceptions *)

Module Py.

(** A [str] is a list of code points. *)
Definition char := N.
Definition str := list char.

(** Source literals are ASCII; [lit] reads one as code points. *)
Definition lit (s : string) : str :=
  map N_of_ascii (list_ascii_of_string s).

(** [a == b] on text. *)
Fixpoint str_eqb (a b : str) : bool :=
  match a, b with
  | [], [] => true
  | x :: a', y :: b' => (x =? y) && str_eqb a' b'
  | _, _ => false
  end.

(** [sep.join(parts)]. *)
Fixpoint join (sep : str) (parts : list str) : str :=
  match parts with
  | [] => []
  | [p] => p
  | p :: rest => p ++ sep ++ join sep rest
  end.

(** The three exception classes the program raises and catches. *)
Variant exn := KeyError | ValueError | IndexError.

Inductive result (A : Type) : Type :=
| Ok (a : A)
| Raise (e : exn).
Arguments Ok {A} a.
Arguments Raise {A} e.

Definition bind {A B} (r : result A) (k : A -> result B) : result B :=
  match r with
  | Ok a => k a
  | Raise e => Raise e
  end.

End Py.
Import Py.

Declare Scope py_scope.
Delimit Scope py_scope with py.
Notation "x <- r ;; k" := (Py.bind r (fun x => k))
(at level 61, r at next level, right associativity) : py_scope.
Local Open Scope py_scope.

(** ** The Unicode character database, as far as the program consults it

  [str.isdigit] holds of the characters whose Numeric_Type is Decimal
  or Digit; the regular expression class [\d] and [int] accept the
  Decimal ones only.  The tables are those of Unicode 14.0.0, the
  database of CPython 3.11; every Decimal run starts at a zero and
  counts upwards, ten code points per script. *)

Module Unicode.

Definition decimal_runs : list (N * N) :=
   [(48, 57); (1632, 1641); (1776, 1785); (1984, 1993); (2406, 2415);
  (2534, 2543); (2662, 2671); (2790, 2799); (2918, 2927); (3046, 3055);
  (3174, 3183); (3302, 3311); (3430, 3439); (3558, 3567); (3664, 3673);
  (3792, 3801); (3872, 3881); (4160, 4169); (4240, 4249); (6112, 6121);
  (6160, 6169); (6470, 6479); (6608, 6617); (6784, 6793); (6800, 6809);
  (6992, 7001); (7088, 7097); (7232, 7241); (7248, 7257); (42528, 42537);
  (43216, 43225); (43264, 43273); (43472, 43481); (43504, 43513);
  (43600, 43609); (44016, 44025); (65296, 65305); (66720, 66729);
  (68912, 68921); (69734, 69743); (69872, 69881); (69942, 69951);
  (70096, 70105); (70384, 70393); (70736, 70745); (70864, 70873);
  (71248, 71257); (71360, 71369); (71472, 71481); (71904, 71913);
  (72016, 72025); (72784, 72793); (73040, 73049); (73120, 73129);
  (92768, 92777); (92864, 92873); (93008, 93017); (120782, 120831);
  (123200, 123209); (123632, 123641); (125264, 125273); (130032, 130041)].

(** Numeric_Type Digit without Decimal: superscripts, subscripts,
    circled and parenthesised digits and the like. *)
Definition digit_only_runs : list (N * N) :=
   [(178, 179); (185, 185); (4969, 4977); (6618, 6618); (8304, 8304);
  (8308, 8313); (8320, 8329); (9312, 9320); (9332, 9340); (9352, 9360);
  (9450, 9450); (9461, 9469); (9471, 9471); (10102, 10110); (10112, 10120);
  (10122, 10130); (68160, 68163); (69216, 69224); (69714, 69722);
  (127232, 127242)].

Definition in_run (c : char) (r : N * N) : bool :=
  (fst r <=? c) && (c <=? snd r).

Definition isdecimal_char (c : char) : bool :=
  existsb (in_run c) decimal_runs.

Definition isdigit_char (c : char) : bool :=
  isdecimal_char c || existsb (in_run c) digit_only_runs.

(** The value 0..9 of a Decimal character. *)
Definition decimal_value (c : char) : option Z :=
  match find (in_run c) decimal_runs with
  | Some (lo, _) => Some (Z.of_N ((c - lo) mod 10))
  | None => None
  end.

(** [s.isdigit()]: at least one character and all of them digits. *)
Definition isdigit (s : str) : bool :=
  match s with
  | [] => false
  | _ => forallb isdigit_char s
  end.

(** [int(s)] on the texts the date parser hands it: surrounding blanks
    are dropped (only a leading space occurs), then Decimal characters
    are read in base ten.  Anything else is a [ValueError]. *)
Fixpoint int_digits (s : str) (acc : Z) : result Z :=
  match s with
  | [] => Ok acc
  | c :: s' =>
      match decimal_value c with
      | Some v => int_digits s' (10 * acc + v)%Z
      | None => Raise ValueError
      end
  end.

Fixpoint lstrip_space (s : str) : str :=
  match s with
  | c :: s' => if c =? 32 then lstrip_space s' else s
  | [] => []
  end.

Definition int (s : str) : result Z :=
  match lstrip_space s with
  | [] => Raise ValueError
  | body => int_digits body 0%Z
  end.

(** ["%d" % n] for a non-negative [n], and its zero-padded form
    ["%0<width>d"]. *)
Fixpoint decimal_loop (fuel : nat) (n : N) (acc : str) : str :=
  match fuel with
  | O => acc
  | S fuel' =>
      let acc' := (48 + n mod 10) :: acc in
      if n / 10 =? 0 then acc' else decimal_loop fuel' (n / 10) acc'
  end.

Definition decimal (n : N) : str :=
  decimal_loop (S (N.to_nat (N.log2 n))) n [].

Definition zero_padded (width : nat) (n : N) : str :=
  let digits := decimal n in
  repeat 48 (width - List.length digits) ++ digits.

End Unicode.

(** ** Field validators *)

(** [class Field]: a box around one value; [__str__] is [str(self.value)],
  which depends on what the box holds. *)
Record Field (A : Type) : Type := mkField { value : A }.
Arguments mkField {A} value.
Arguments value {A} f.

Class Str (A : Type) := to_str : A -> str.

#[export] Instance Str_str : Str str := fun s => s.

Definition Field_str {A} `{Str A} (f : Field A) : str := to_str (value f).

Definition Name := Field str.

Module Phone.

Definition t := Field str.

Definition validate_phone (phone : str) : bool :=
  Unicode.isdigit phone && (N.of_nat (length phone) =? 10).

Definition init (v : str) : result t :=
  if negb (validate_phone v) then Raise ValueError
  else Ok (mkField v).

End Phone.

(** ** Calendar dates: [datetime.date]

    The proleptic Gregorian calendar of the standard library, years 1 to
    9999, with its ordinal day count (1 January of year 1 is day 1). *)

Module Date.

Record t : Type := mk { year : Z; month : Z; day : Z }.

Local Open Scope Z_scope.

Definition MINYEAR : Z := 1.
Definition MAXYEAR : Z := 9999.

Definition DAYS_IN_MONTH : list Z :=
  [-1; 31; 28; 31; 30; 31; 30; 31; 31; 30; 31; 30; 31].

Definition DAYS_BEFORE_MONTH : list Z :=
  [-1; 0; 31; 59; 90; 120; 151; 181; 212; 243; 273; 304; 334].

Definition is_leap (y : Z) : bool :=
  (y mod 4 =? 0) && (negb (y mod 100 =? 0) || (y mod 400 =? 0)).

Definition days_before_year (y : Z) : Z :=
  let y := y - 1 in
  y * 365 + y / 4 - y / 100 + y / 400.

Definition days_in_month (y m : Z) : Z :=
  if (m =? 2) && is_leap y then 29
  else nth (Z.to_nat m) DAYS_IN_MONTH (-1).

Definition days_before_month (y m : Z) : Z :=
  nth (Z.to_nat m) DAYS_BEFORE_MONTH (-1)
  + (if (2 <? m) && is_leap y then 1 else 0).

Definition ymd2ord (y m d : Z) : Z :=
  days_before_year y + days_before_month y m + d.

(** The field check every constructor call goes through. *)
Definition check_date_fields (y m d : Z) : bool :=
  (MINYEAR <=? y) && (y <=? MAXYEAR)
  && (1 <=? m) && (m <=? 12)
  && (1 <=? d) && (d <=? days_in_month y m).

(** [date(y, m, d)]. *)
Definition new (y m d : Z) : result t :=
  if check_date_fields y m d then Ok (mk y m d) else Raise ValueError.

(** [self.replace(year=y)]: a new date built from the other two fields. *)
Definition replace_year (self : t) (y : Z) : result t :=
  new y (month self) (day self).

(** [a < b]: the order of the (year, month, day) triples. *)
Definition ltb (a b : t) : bool :=
  (year a <? year b)
  || ((year a =? year b)
      && ((month a <? month b)
          || ((month a =? month b) && (day a <? day b)))).

Definition toordinal (self : t) : Z :=
  ymd2ord (year self) (month self) (day self).

(** [(a - b).days]. *)
Definition sub_days (a b : t) : Z := toordinal a - toordinal b.

(** [str(d)] is [d.isoformat()], that is ["%04d-%02d-%02d"]. *)
Definition isoformat (self : t) : str :=
  Unicode.zero_padded 4 (Z.to_N (year self)) ++ lit "-"
  ++ Unicode.zero_padded 2 (Z.to_N (month self)) ++ lit "-"
  ++ Unicode.zero_padded 2 (Z.to_N (day self)).

(** [strftime] hands ["%Y"] to the C library.  Some print the year
    zero-padded to four digits (macOS, Windows, and CPython from 3.13 on
    everywhere); glibc under older CPython prints it as a plain decimal,
    so year 999 comes out as three characters.  ["%m"] and ["%d"] are
    two digits everywhere. *)
Variant year_style := FourDigitYear | PlainYear.

Definition strftime_Ymd (libc : year_style) (self : t) : str :=
  (match libc with
   | FourDigitYear => Unicode.zero_padded 4 (Z.to_N (year self))
   | PlainYear => Unicode.decimal (Z.to_N (year self))
   end)
  ++ lit "." ++ Unicode.zero_padded 2 (Z.to_N (month self))
  ++ lit "." ++ Unicode.zero_padded 2 (Z.to_N (day self)).

End Date.

#[export] Instance Str_date : Str Date.t := Date.isoformat.

(** ** [datetime.strptime(value, "%Y.%m.%d")]

    The format is compiled to the regular expression
    [(?P<Y>\d\d\d\d)\.(?P<m>1[0-2]|0[1-9]|[1-9])\.(?P<d>3[0-1]|[1-2]\d|0[1-9]|[1-9]| [1-9])]
    and matched at the start of the text by a backtracking matcher; text
    left over after the match is an error, and so is a triple that is not
    a date. *)

Module Strptime.

(** A matcher lists, in the order backtracking tries them, the ways a
    pattern reads a prefix: the text read and the text left. *)
Definition matcher := str -> list (str * str).

Definition one (p : char -> bool) : matcher :=
  fun s => match s with
           | c :: s' => if p c then [([c], s')] else []
           | [] => []
           end.

Definition cat (a b : matcher) : matcher :=
  fun s =>
    flat_map (fun xr => map (fun yr => (fst xr ++ fst yr, snd yr)) (b (snd xr)))
             (a s).

Definition alt (a b : matcher) : matcher := fun s => a s ++ b s.

Definition exactly (x : char) : char -> bool := fun c => c =? x.
Definition between (lo hi : char) : char -> bool :=
  fun c => (lo <=? c) && (c <=? hi).

(** [\d] on text is any Unicode decimal digit. *)
Definition digit : matcher := one Unicode.isdecimal_char.
Definition dot : matcher := one (exactly 46).

Definition group_Y : matcher := cat digit (cat digit (cat digit digit)).

Definition group_m : matcher :=
  alt (cat (one (exactly 49)) (one (between 48 50)))
 (alt (cat (one (exactly 48)) (one (between 49 57)))
      (one (between 49 57))).

Definition group_d : matcher :=
  alt (cat (one (exactly 51)) (one (between 48 49)))
 (alt (cat (one (between 49 50)) digit)
 (alt (cat (one (exactly 48)) (one (between 49 57)))
 (alt (one (between 49 57))
      (cat (one (exactly 32)) (one (between 49 57)))))).

(** The named groups of a match and the text after it. *)
Record found : Type :=
  mkfound { grp_Y : str; grp_m : str; grp_d : str; unconverted : str }.

Definition regex_match (data_string : str) : option found :=
  hd_error
    (flat_map (fun Y =>
     flat_map (fun d1 =>
     flat_map (fun m =>
     flat_map (fun d2 =>
          map (fun d => mkfound (fst Y) (fst m) (fst d) (snd d))
              (group_d (snd d2)))
              (dot (snd m)))
              (group_m (snd d1)))
              (dot (snd Y)))
              (group_Y data_string)).

Definition strptime (data_string : str) : result Date.t :=
  match regex_match data_string with
  | None => Raise ValueError
  | Some f =>
      match unconverted f with
      | _ :: _ => Raise ValueError
      | [] =>
          year <- Unicode.int (grp_Y f) ;;
          month <- Unicode.int (grp_m f) ;;
          day <- Unicode.int (grp_d f) ;;
          Date.new year month day
      end
  end.

End Strptime.

Module Birthday.

Definition t := Field Date.t.

(** Any [ValueError] of the parser is raised again as a [ValueError]
    with the program's own message. *)
Definition init (v : str) : result t :=
  match Strptime.strptime v with
  | Ok d => Ok (mkField d)
  | Raise ValueError => Raise ValueError
  | Raise e => Raise e
  end.

End Birthday.

(** ** Mutable objects: state threaded through possibly raising code

    A computation over an object of type [S] returns its outcome and the
    object as it is when the computation ends, normally or by raising. *)

Module State.

Definition M (S A : Type) : Type := S -> result A * S.

Definition ret {S A} (a : A) : M S A := fun s => (Ok a, s).

Definition bind {S A B} (m : M S A) (k : A -> M S B) : M S B :=
  fun s => match m s with
           | (Ok a, s') => k a s'
           | (Raise e, s') => (Raise e, s')
           end.

Definition raise {S A} (e : exn) : M S A := fun s => (Raise e, s).
Definition get {S} : M S S := fun s => (Ok s, s).
Definition put {S} (s : S) : M S unit := fun _ => (Ok tt, s).
Definition lift {S A} (r : result A) : M S A := fun s => (r, s).

End State.
Import State.

Declare Scope st_scope.
Delimit Scope st_scope with st.
Bind Scope st_scope with M.
Notation "x <- m ;; k" := (State.bind m (fun x => k))
  (at level 61, m at next level, right associativity) : st_scope.
Notation "m ;; k" := (State.bind m (fun _ => k))
  (at level 61, right associativity) : st_scope.

(** ** Lists and dictionaries as Python has them *)

Module PyList.

(** [l[i]]: [IndexError] out of range. *)
Definition getitem {A} (l : list A) (i : nat) : result A :=
  match nth_error l i with
  | Some a => Ok a
  | None => Raise IndexError
  end.

(** [l[i] = v]: in place, [IndexError] out of range. *)
Fixpoint setitem {A} (l : list A) (i : nat) (v : A) : result (list A) :=
  match l, i with
  | [], _ => Raise IndexError
  | _ :: l', O => Ok (v :: l')
  | a :: l', S i' => (l'' <- setitem l' i' v ;; Ok (a :: l''))%py
  end.

End PyList.

(** A [dict] keyed by text keeps its keys in insertion order; assigning
    to a key already present keeps the key where it is. *)
Module Dict.

Definition t (V : Type) : Type := list (str * V).

Fixpoint get {V} (d : t V) (k : str) : option V :=
  match d with
  | [] => None
  | (k', v) :: d' => if str_eqb k' k then Some v else get d' k
  end.

Definition contains {V} (d : t V) (k : str) : bool :=
  match get d k with Some _ => true | None => false end.

Definition getitem {V} (d : t V) (k : str) : result V :=
  match get d k with Some v => Ok v | None => Raise KeyError end.

Fixpoint setitem {V} (d : t V) (k : str) (v : V) : t V :=
  match d with
  | [] => [(k, v)]
  | (k', v') :: d' =>
      if str_eqb k' k then (k', v) :: d' else (k', v') :: setitem d' k v
  end.

Definition keys {V} (d : t V) : list str := map fst d.
Definition values {V} (d : t V) : list V := map snd d.

End Dict.

(** ** [class Record] *)

Module Record.

Record t : Type :=
  mk { name : Name; phones : list Phone.t; birthday : option Birthday.t }.

Definition init (name : str) : t := mk (mkField name) [] None.

Definition with_phones (self : t) (ps : list Phone.t) : t :=
  mk (name self) ps (birthday self).

Definition with_birthday (self : t) (b : option Birthday.t) : t :=
  mk (name self) (phones self) b.

Local Open Scope st_scope.

(** [self.phones.append(Phone(phone))]: the argument is built, and may
    raise, before the list is touched. *)
Definition add_phone (phone : str) : M t unit :=
  p <- lift (Phone.init phone) ;;
  self <- get ;;
  put (with_phones self (phones self ++ [p])).

(** The [for idx, ph in enumerate(self.phones)] loop, [rest] being what
    is left to visit and [idx] the index of its head. *)
Fixpoint edit_phone_loop (idx : nat) (rest : list Phone.t)
    (old_phone new_phone : str) : M t unit :=
  match rest with
  | [] => ret tt
  | ph :: rest' =>
      if str_eqb (value ph) old_phone then
        p <- lift (Phone.init new_phone) ;;
        self <- get ;;
        ps <- lift (PyList.setitem (phones self) idx p) ;;
        put (with_phones self ps)
      else edit_phone_loop (S idx) rest' old_phone new_phone
  end.

Definition edit_phone (old_phone new_phone : str) : M t unit :=
  self <- get ;;
  edit_phone_loop 0 (phones self) old_phone new_phone.

Definition add_birthday (birthday : str) : M t unit :=
  b <- lift (Birthday.init birthday) ;;
  self <- get ;;
  put (with_birthday self (Some b)).

(** [__str__]; a [Birthday] object is always truthy, so the placeholder
    shows exactly when the attribute is [None]. *)
Definition to_string (self : t) : str :=
  let phones := join (lit ", ") (map Field_str (phones self)) in
  let birthday := match birthday self with
                  | Some b => Field_str b
                  | None => lit "No birthday"
                  end in
  lit "Contact name: " ++ Field_str (name self) ++ lit ", phones: " ++ phones
  ++ lit ", birthday: " ++ birthday.

End Record.

#[export] Instance Str_record : Str Record.t := Record.to_string.

(** ** [class AddressBook] *)

Module AddressBook.

(** The book is its [data] dictionary. *)
Definition t : Type := Dict.t Record.t.

Local Open Scope st_scope.

Definition add_record (record : Record.t) : M t unit :=
  self <- get ;;
  put (Dict.setitem self (value (Record.name record)) record).

(** [__iter__] walks the values. *)
Definition iter (self : t) : list Record.t := Dict.values self.

(** One element of the list [get_upcoming_birthdays] returns: the
    dictionary with keys ["name"] and ["birthday"]. *)
Record entry : Type := mkentry { entry_name : str; entry_birthday : str }.

Local Open Scope Z_scope.

(** The body of the loop for one record: the list after the record has
    been looked at. *)
Definition visit (libc : Date.year_style) (today : Date.t) (days : Z)
    (upcoming_birthdays : list entry) (record : Record.t)
    : result (list entry) :=
  match Record.birthday record with
  | None => Ok upcoming_birthdays
  | Some b =>
     (birthday_this_year <- Date.replace_year (value b) (Date.year today) ;;
      birthday_this_year <-
        (if Date.ltb birthday_this_year today
         then Date.replace_year birthday_this_year (Date.year today + 1)
         else Ok birthday_this_year) ;;
      let days_until_birthday := Date.sub_days birthday_this_year today in
      if (0 <=? days_until_birthday) && (days_until_birthday <=? days)
      then Ok (upcoming_birthdays
                 ++ [mkentry (value (Record.name record))
                             (Date.strftime_Ymd libc birthday_this_year)])
      else Ok upcoming_birthdays)%py
  end.

Fixpoint visit_all (libc : Date.year_style) (today : Date.t) (days : Z)
    (upcoming_birthdays : list entry) (records : list Record.t)
    : result (list entry) :=
  match records with
  | [] => Ok upcoming_birthdays
  | record :: rest =>
      (acc <- visit libc today days upcoming_birthdays record ;;
       visit_all libc today days acc rest)%py
  end.

(** [today] is what [datetime.today().date()] returns at the call. *)
Definition get_upcoming_birthdays (libc : Date.year_style) (today : Date.t)
    (self : t) (days : Z) : result (list entry) :=
  visit_all libc today days [] (Dict.values self).

End AddressBook.

(** ** Command handlers and the [input_error] wrapper *)

Module Handlers.

Local Open Scope st_scope.

Definition handler : Type := list str -> M AddressBook.t str.

(** A method call on the record the book holds under [name]: the record
    is changed where it lives, whether the method returns or raises. *)
Definition on_record {A} (name : str) (m : M Record.t A)
    : M AddressBook.t A :=
  fun book =>
    match Dict.get book name with
    | Some record =>
        let (r, record') := m record in (r, Dict.setitem book name record')
    | None => (Raise KeyError, book)
    end.

(** A method call on a record the book does not hold yet; the record as
    the call leaves it is returned. *)
Definition on_local {A} (record : Record.t) (m : M Record.t A)
    : M AddressBook.t Record.t :=
  fun book =>
    match m record with
    | (Ok _, record') => (Ok record', book)
    | (Raise e, _) => (Raise e, book)
    end.

Definition add_contact : handler := fun args =>
  if (length args <? 2)%nat then raise ValueError
  else
    name <- lift (PyList.getitem args 0) ;;
    phone <- lift (PyList.getitem args 1) ;;
    book <- get ;;
    (if Dict.contains book name
     then on_record name (Record.add_phone phone)
     else
       record <- on_local (Record.init name) (Record.add_phone phone) ;;
       AddressBook.add_record record) ;;
    ret (lit "Contact " ++ name ++ lit " added with phone number "
         ++ phone ++ lit ".").

Definition change_contact : handler := fun args =>
  if (length args <? 3)%nat then raise ValueError
  else
    name <- lift (PyList.getitem args 0) ;;
    old_phone <- lift (PyList.getitem args 1) ;;
    new_phone <- lift (PyList.getitem args 2) ;;
    book <- get ;;
    match Dict.get book name with
    | Some _ =>
        on_record name (Record.edit_phone old_phone new_phone) ;;
        ret (lit "Phone number for " ++ name ++ lit " updated to "
             ++ new_phone ++ lit ".")
    | None => raise KeyError
    end.

Definition show_phone : handler := fun args =>
  match args with
  | [] => raise IndexError
  | name :: _ =>
      book <- get ;;
      match Dict.get book name with
      | Some record =>
          let phones :=
            join (lit ", ") (map Field_str (Record.phones record)) in
          ret (name ++ lit "'s phone numbers are: " ++ phones ++ lit ".")
      | None => raise KeyError
      end
  end.

Definition show_all_contacts : handler := fun _ =>
  book <- get ;;
  match book with
  | _ :: _ => ret (join [10] (map to_str (AddressBook.iter book)))
  | [] => ret (lit "No contacts available.")
  end.

Definition add_birthday : handler := fun args =>
  if (length args <? 2)%nat then raise ValueError
  else
    name <- lift (PyList.getitem args 0) ;;
    birthday <- lift (PyList.getitem args 1) ;;
    book <- get ;;
    match Dict.get book name with
    | Some _ =>
        on_record name (Record.add_birthday birthday) ;;
        ret (lit "Birthday for " ++ name ++ lit " added: " ++ birthday)
    | None => raise KeyError
    end.

Definition show_birthday (libc : Date.year_style) : handler := fun args =>
  match args with
  | [] => raise IndexError
  | name :: _ =>
      book <- get ;;
      match Dict.get book name with
      | Some record =>
          match Record.birthday record with
          | Some b =>
              ret (name ++ lit "'s birthday is on "
                   ++ Date.strftime_Ymd libc (value b) ++ lit ".")
          | None => ret (lit "No birthday set for " ++ name ++ lit ".")
          end
      | None => raise KeyError
      end
  end.

Definition birthdays (libc : Date.year_style) (today : Date.t) : handler :=
  fun _ =>
    book <- get ;;
    upcoming_birthdays <-
      lift (AddressBook.get_upcoming_birthdays libc today book 7) ;;
    match upcoming_birthdays with
    | _ :: _ =>
        ret (lit "Upcoming birthdays:" ++ [10]
             ++ join [10]
                  (map (fun entry =>
                          AddressBook.entry_name entry ++ lit ": "
                          ++ AddressBook.entry_birthday entry)
                       upcoming_birthdays))
    | [] => ret (lit "No birthdays in the upcoming week.")
    end.

Definition MSG_KEY : str := lit "This contact does not exist.".
Definition MSG_VALUE : str := lit "Give me name and phone please.".
Definition MSG_INDEX : str := lit "Enter user name.".

(** The decorator: the wrapped handler returns text whatever happens
    inside; the book is left as the handler left it. *)
Definition input_error (func : handler)
    : list str -> AddressBook.t -> str * AddressBook.t :=
  fun args book =>
    match func args book with
    | (Ok s, book') => (s, book')
    | (Raise KeyError, book') => (MSG_KEY, book')
    | (Raise ValueError, book') => (MSG_VALUE, book')
    | (Raise IndexError, book') => (MSG_INDEX, book')
    end.

(** One turn of the loop in [main] after [parse_input]: what is printed
    and the book afterwards, or the end of the session. *)
Variant turn : Type :=
| Printed (line : str) (book : AddressBook.t)
| Closed (book : AddressBook.t).

Definition printed (r : str * AddressBook.t) : turn :=
  Printed (fst r) (snd r).

Definition dispatch (libc : Date.year_style) (today : Date.t)
    (command : str) (args : list str) (book : AddressBook.t) : turn :=
  if str_eqb command (lit "close") || str_eqb command (lit "exit")
  then Closed book
  else if str_eqb command (lit "hello")
  then Printed (lit "How can I help you?") book
  else if str_eqb command (lit "add")
  then printed (input_error add_contact args book)
  else if str_eqb command (lit "change")
  then printed (input_error change_contact args book)
  else if str_eqb command (lit "phone")
  then printed (input_error show_phone args book)
  else if str_eqb command (lit "all")
  then printed (input_error show_all_contacts args book)
  else if str_eqb command (lit "add-birthday")
  then printed (input_error add_birthday args book)
  else if str_eqb command (lit "show-birthday")
  then printed (input_error (show_birthday libc) args book)
  else if str_eqb command (lit "birthdays")
  then printed (input_error (birthdays libc today) args book)
  else Printed (lit "Invalid command.") book.

End Handlers.

(** ** Reading a command line: [parse_input]

    [str.strip] and [str.split] without arguments work on whitespace:
    the characters [str.isspace] holds of (general category Zs, or
    bidirectional class WS, B or S; Unicode 14.0.0). *)

Module Whitespace.

Definition space_runs : list (N * N) :=
  [(9, 13); (28, 32); (133, 133); (160, 160); (5760, 5760); (8192, 8202);
   (8232, 8233); (8239, 8239); (8287, 8287); (12288, 12288)].

Definition isspace_char (c : char) : bool :=
  existsb (Unicode.in_run c) space_runs.

Fixpoint lstrip (s : str) : str :=
  match s with
  | c :: s' => if isspace_char c then lstrip s' else s
  | [] => []
  end.

Definition rstrip (s : str) : str := rev (lstrip (rev s)).

(** [s.strip()]. *)
Definition strip (s : str) : str := rstrip (lstrip s).

(** [s.split()]: the maximal runs of characters that are not
    whitespace, left to right; [word] is the run being read. *)
Fixpoint split_from (s : str) (word : str) : list str :=
  match s with
  | [] => match word with [] => [] | _ :: _ => [word] end
  | c :: s' =>
      if isspace_char c
      then match word with
           | [] => split_from s' []
           | _ :: _ => word :: split_from s' []
           end
      else split_from s' (word ++ [c])
  end.

Definition split (s : str) : list str := split_from s [].

End Whitespace.

(** ** The session: [parse_input], [load_data], [save_data], [main] *)

Module Repl.

Section WithLower.

(** [str.lower], the Unicode lower-casing of the standard library, is
    not part of the program; the session is modelled over it. *)
Variable lower : str -> str.

Definition parse_input (user_input : str) : str * list str :=
  let tokens := Whitespace.split (Whitespace.strip user_input) in
  let cmd := match tokens with
             | t :: _ => lower t
             | [] => lit ""
             end in
  let args := tl tokens in
  (cmd, args).

(** The pickle file: absent, or holding the book last dumped into it.
    Loading gives back the book that was dumped. *)
Definition file : Type := option AddressBook.t.

Definition save_data (book : AddressBook.t) : file := Some book.

Definition load_data (f : file) : AddressBook.t :=
  match f with
  | Some book => book
  | None => []
  end.

(** What the session writes to the terminal: the prompt of [input] and
    the lines of [print]. *)
Variant event : Type :=
| Prompt (text : str)
| Line (text : str).

(** How [main] ends: by [break] after a close or exit command, or by
    the [EOFError] of [input] when the input is used up, which nothing
    catches. *)
Variant ending : Type := Finished | EndOfInput.

Record run : Type :=
  mkrun { events : list event; saved : option AddressBook.t;
          ended : ending }.

(** The [while True] loop over the lines typed, each with the date of
    the day it is handled on. *)
Fixpoint loop (libc : Date.year_style) (inputs : list (Date.t * str))
    (book : AddressBook.t) : run :=
  match inputs with
  | [] => mkrun [Prompt (lit "Enter a command: ")] None EndOfInput
  | (today, user_input) :: rest =>
      let (command, args) := parse_input user_input in
      match Handlers.dispatch libc today command args book with
      | Handlers.Closed book' =>
          mkrun [Prompt (lit "Enter a command: "); Line (lit "Good bye!")]
                (Some book') Finished
      | Handlers.Printed line book' =>
          let r := loop libc rest book' in
          mkrun (Prompt (lit "Enter a command: ") :: Line line :: events r)
                (saved r) (ended r)
      end
  end.

(** [main()]: the terminal output, the pickle file afterwards and the
    way the session ended. *)
Definition main (libc : Date.year_style) (f : file)
    (inputs : list (Date.t * str)) : list event * file * ending :=
  let book := load_data f in
  let r := loop libc inputs book in
  (Line (lit "Welcome to the assistant bot!") :: events r,
   match saved r with
   | Some book' => save_data book'
   | None => f
   end,
   ended r).

End WithLower.

End Repl.

(** ** What the specification talks about *)

Module Spec.

Local Open Scope Z_scope.

(** A decimal digit 0-9. *)
Definition ascii_digit (c : char) : Prop := (48 <= c <= 57)%N.

Definition digit_value (c : char) : Z := Z.of_N (c - 48).

(** Ten characters, all of them 0-9. *)
Definition ten_ascii_digits (s : str) : Prop :=
  length s = 10%nat /\ Forall ascii_digit s.

(** Ten characters, all of them digits to [str.isdigit]. *)
Definition ten_digits (s : str) : Prop :=
  length s = 10%nat /\ Forall (fun c => Unicode.isdigit_char c = true) s.

(** A real calendar date: the fields [datetime.date] admits. *)
Definition real_date (d : Date.t) : Prop :=
  1 <= Date.year d <= 9999
  /\ 1 <= Date.month d <= 12
  /\ 1 <= Date.day d <= Date.days_in_month (Date.year d) (Date.month d).

(** The exact pattern YYYY.MM.DD in digits 0-9, and the triple it
    denotes. *)
Inductive exact_YMD : str -> Date.t -> Prop :=
| exact_YMD_intro (y1 y2 y3 y4 m1 m2 d1 d2 : char) :
    Forall ascii_digit [y1; y2; y3; y4; m1; m2; d1; d2] ->
    exact_YMD [y1; y2; y3; y4; 46%N; m1; m2; 46%N; d1; d2]
      (Date.mk (1000 * digit_value y1 + 100 * digit_value y2
                + 10 * digit_value y3 + digit_value y4)
               (10 * digit_value m1 + digit_value m2)
               (10 * digit_value d1 + digit_value d2)).

(** The year, month and day spellings the parser reads. *)
Inductive year_text : str -> Z -> Prop :=
| year_four (a b c d : char) (va vb vc vd : Z) :
    Unicode.decimal_value a = Some va ->
    Unicode.decimal_value b = Some vb ->
    Unicode.decimal_value c = Some vc ->
    Unicode.decimal_value d = Some vd ->
    year_text [a; b; c; d] (1000 * va + 100 * vb + 10 * vc + vd).

Inductive month_text : str -> Z -> Prop :=
| month_ten (c : char) :
    (48 <= c <= 50)%N -> month_text [49%N; c] (10 + digit_value c)
| month_padded (c : char) :
    (49 <= c <= 57)%N -> month_text [48%N; c] (digit_value c)
| month_single (c : char) :
    (49 <= c <= 57)%N -> month_text [c] (digit_value c).

Inductive day_text : str -> Z -> Prop :=
| day_thirty (c : char) :
    (48 <= c <= 49)%N -> day_text [51%N; c] (30 + digit_value c)
| day_teens (c e : char) (v : Z) :
    (49 <= c <= 50)%N -> Unicode.decimal_value e = Some v ->
    day_text [c; e] (10 * digit_value c + v)
| day_padded (c : char) :
    (49 <= c <= 57)%N -> day_text [48%N; c] (digit_value c)
| day_single (c : char) :
    (49 <= c <= 57)%N -> day_text [c] (digit_value c)
| day_blank (c : char) :
    (49 <= c <= 57)%N -> day_text [32%N; c] (digit_value c).

(** The texts that denote a date to the parser. *)
Definition accepted_text (s : str) (d : Date.t) : Prop :=
  exists Y M D y m dd,
    s = Y ++ [46%N] ++ M ++ [46%N] ++ D
    /\ year_text Y y /\ month_text M m /\ day_text D dd
    /\ d = Date.mk y m dd /\ real_date d.

(** The integers [from], [from + 1], ... , [k] of them. *)
Fixpoint upto (k : nat) (from : Z) : list Z :=
  match k with
  | O => []
  | S k' => from :: upto k' (from + 1)
  end.

(** Fixed-width decimal numerals. *)
Definition two_digits (n : Z) : str :=
  [(48 + Z.to_N (n / 10))%N; (48 + Z.to_N (n mod 10))%N].

Definition four_digits (n : Z) : str :=
  [(48 + Z.to_N (n / 1000))%N; (48 + Z.to_N (n / 100 mod 10))%N;
   (48 + Z.to_N (n / 10 mod 10))%N; (48 + Z.to_N (n mod 10))%N].

(** YYYY-MM-DD and YYYY.MM.DD renderings of a date. *)
Definition dashed (d : Date.t) : str :=
  four_digits (Date.year d) ++ lit "-" ++ two_digits (Date.month d)
  ++ lit "-" ++ two_digits (Date.day d).

Definition dotted (d : Date.t) : str :=
  four_digits (Date.year d) ++ lit "." ++ two_digits (Date.month d)
  ++ lit "." ++ two_digits (Date.day d).

(** The birthday's date in the current year, rolled forward one year if
    it has already passed, and the day count from today to it. *)
Definition this_year (today b : Date.t) : Date.t :=
  Date.mk (Date.year today) (Date.month b) (Date.day b).

Definition rolled (today b : Date.t) : Date.t :=
  if Date.ltb (this_year today b) today
  then Date.mk (Date.year today + 1) (Date.month b) (Date.day b)
  else this_year today b.

Definition delta (today b : Date.t) : Z :=
  Date.toordinal (rolled today b) - Date.toordinal today.

(** The pairs the query is to report, in the order of the records. *)
Definition upcoming (libc : Date.year_style) (today : Date.t) (days : Z)
    (records : list Record.t) : list AddressBook.entry :=
  flat_map
    (fun r =>
       match Record.birthday r with
       | Some b =>
           if (0 <=? delta today (value b)) && (delta today (value b) <=? days)
           then [AddressBook.mkentry (value (Record.name r))
                   (Date.strftime_Ymd libc (rolled today (value b)))]
           else []
       | None => []
       end)
    records.

(** Both dates the query builds for a birthday exist. *)
Definition rolls (today b : Date.t) : Prop :=
  real_date (this_year today b) /\ real_date (rolled today b).

(** The commands that reach a handler. *)
Variant command : Type :=
| Add | Change | ShowPhone | All | AddBirthday | ShowBirthday | Birthdays.

Definition handler_of (libc : Date.year_style) (today : Date.t)
    (c : command) : Handlers.handler :=
  match c with
  | Add => Handlers.add_contact
  | Change => Handlers.change_contact
  | ShowPhone => Handlers.show_phone
  | All => Handlers.show_all_contacts
  | AddBirthday => Handlers.add_birthday
  | ShowBirthday => Handlers.show_birthday libc
  | Birthdays => Handlers.birthdays libc today
  end.

Definition failure_message (s : str) : Prop :=
  s = Handlers.MSG_VALUE \/ s = Handlers.MSG_KEY \/ s = Handlers.MSG_INDEX.

End Spec.

(** ** What a well-formed book is, and how books compare *)

Module Inv.

Local Open Scope Z_scope.

(** A record whose phones all validate and whose birthday, if set, is a
    real date. *)
Definition record_ok (r : Record.t) : Prop :=
  Forall (fun p => Phone.validate_phone (value p) = true) (Record.phones r)
  /\ forall b, Record.birthday r = Some b -> Spec.real_date (value b).

(** A book as a dictionary of such records, each under its own name. *)
Definition book_ok (book : AddressBook.t) : Prop :=
  NoDup (Dict.keys book)
  /\ Forall (fun kr => value (Record.name (snd kr)) = fst kr
                       /\ record_ok (snd kr)) book.

(** [book'] has the contacts of [book] in the same places, maybe more
    after them; no contact has lost a phone or its birthday. *)
Definition grows (book book' : AddressBook.t) : Prop :=
  (exists more, Dict.keys book' = Dict.keys book ++ more)
  /\ forall k r,
       Dict.get book k = Some r ->
       exists r',
         Dict.get book' k = Some r'
         /\ Record.name r' = Record.name r
         /\ (length (Record.phones r) <= length (Record.phones r'))%nat
         /\ (Record.birthday r <> None -> Record.birthday r' <> None).

(** The day's number within its year, 1 for 1 January. *)
Definition day_of_year (d : Date.t) : Z :=
  Date.days_before_month (Date.year d) (Date.month d) + Date.day d.

(** The same day and month. *)
Definition same_day (a b : Date.t) : Prop :=
  Date.month a = Date.month b /\ Date.day a = Date.day b.

(** Text of whitespace only, and a word: non-empty text without
    whitespace. *)
Definition blank (s : str) : Prop :=
  Forall (fun c => Whitespace.isspace_char c = true) s.

Definition word (s : str) : Prop :=
  s <> [] /\ Forall (fun c => Whitespace.isspace_char c = false) s.

(** Lower-casing of the letters A-Z, which [str.lower] does on text of
    characters below 128. *)
Definition ascii_lower_char (c : char) : char :=
  if ((65 <=? c) && (c <=? 90))%N then (c + 32)%N else c.

Definition ascii_lower (s : str) : str := map ascii_lower_char s.

Definition lower_on_ascii (lower : str -> str) : Prop :=
  forall s, Forall (fun c => (c < 128)%N) s -> lower s = ascii_lower s.

(** The word that sends a turn of the loop to a handler, and the text
    the wrapper returns for an exception of each class. *)
Definition command_word (c : Spec.command) : str :=
  match c with
  | Spec.Add => lit "add"
  | Spec.Change => lit "change"
  | Spec.ShowPhone => lit "phone"
  | Spec.All => lit "all"
  | Spec.AddBirthday => lit "add-birthday"
  | Spec.ShowBirthday => lit "show-birthday"
  | Spec.Birthdays => lit "birthdays"
  end.

Definition failure_text (e : exn) : str :=
  match e with
  | KeyError => lit "This contact does not exist."
  | ValueError => lit "Give me name and phone please."
  | IndexError => lit "Enter user name."
  end.

(** A line whose command word is close or exit. *)
Definition closes (lower : str -> str) (user_input : str) : bool :=
  str_eqb (fst (Repl.parse_input lower user_input)) (lit "close")
  || str_eqb (fst (Repl.parse_input lower user_input)) (lit "exit").

(** The book a turn of the loop leaves. *)
Definition book_after (t : Handlers.turn) : AddressBook.t :=
  match t with
  | Handlers.Printed _ book => book
  | Handlers.Closed book => book
  end.

(** The turns of a session, one after the other, without the terminal. *)
Fixpoint turns (lower : str -> str) (libc : Date.year_style)
    (inputs : list (Date.t * str)) (book : AddressBook.t) : AddressBook.t :=
  match inputs with
  | [] => book
  | (today, user_input) :: rest =>
      match Handlers.dispatch libc today
              (fst (Repl.parse_input lower user_input))
              (snd (Repl.parse_input lower user_input)) book with
      | Handlers.Printed _ book' => turns lower libc rest book'
      | Handlers.Closed book' => book'
      end
  end.

End Inv.

(** * Properties *)

(** ** Text and characters *)

Lemma str_eqb_eq (a b : str) : str_eqb a b = true <-> a = b.
Proof.
  revert b; induction a as [|x a IH]; intros [|y b]; simpl;
    try (split; intro; discriminate || reflexivity).
  rewrite andb_true_iff, N.eqb_eq, IH.
  split; [intros [-> ->]; reflexivity | intros [= -> ->]; auto].
Qed.

Lemma str_eqb_refl (a : str) : str_eqb a a = true.
Proof. apply str_eqb_eq; reflexivity. Qed.

Lemma str_eqb_neq (a b : str) : str_eqb a b = false <-> a <> b.
Proof.
  rewrite <- str_eqb_eq. destruct (str_eqb a b); split; congruence.
Qed.

Lemma ascii_digit_isdecimal (c : char) :
  Spec.ascii_digit c -> Unicode.isdecimal_char c = true.
Proof.
  intros H. apply existsb_exists. exists (48, 57). split.
  - apply in_eq.
  - unfold Unicode.in_run; cbn [fst snd].
    apply andb_true_iff; split; apply N.leb_le; apply H.
Qed.

Lemma ascii_digit_isdigit (c : char) :
  Spec.ascii_digit c -> Unicode.isdigit_char c = true.
Proof.
  intros H. unfold Unicode.isdigit_char.
  rewrite (ascii_digit_isdecimal c H). reflexivity.
Qed.

(** ** Phone *)

Lemma validate_phone_ten_digits (s : str) :
  Phone.validate_phone s = true <-> Spec.ten_digits s.
Proof.
  unfold Phone.validate_phone, Spec.ten_digits, Unicode.isdigit.
  rewrite andb_true_iff, N.eqb_eq.
  destruct s as [|c s].
  - simpl. split; [intros [H _]; discriminate | intros [H _]; discriminate].
  - rewrite forallb_forall, <- Forall_forall.
    split; intros [H1 H2]; split; auto; lia.
Qed.

(** C3, as the code has it: a phone is built exactly from the texts of
    ten characters that [str.isdigit] takes for digits, which are the
    digits 0-9 and also the digits of other scripts, superscripts and the
    like; every other text raises the validation error; a phone that was
    built renders as the text it was built from; and ten characters 0-9
    are always accepted. *)
Theorem Phone_init_accepts_ten_unicode_digits (s : str) :
  (Spec.ten_digits s <-> Phone.init s = Ok (mkField s))
  /\ (~ Spec.ten_digits s <-> Phone.init s = Raise ValueError)
  /\ (forall p, Phone.init s = Ok p -> Field_str p = s /\ Spec.ten_digits (value p))
  /\ (Spec.ten_ascii_digits s -> Phone.init s = Ok (mkField s)).
Proof.
  pose proof (validate_phone_ten_digits s) as V.
  assert (A : Spec.ten_ascii_digits s -> Spec.ten_digits s).
  { intros [L A]. split; [exact L|].
    eapply Forall_impl; [|exact A]. apply ascii_digit_isdigit. }
  unfold Phone.init.
  destruct (Phone.validate_phone s) eqn:E; cbn [negb].
  - assert (T : Spec.ten_digits s) by (apply V; reflexivity).
    split; [tauto|]. split; [split; [tauto | discriminate]|].
    split; [|reflexivity].
    intros p [= <-]. split; [reflexivity | exact T].
  - assert (T : ~ Spec.ten_digits s).
    { intros T. apply V in T. discriminate. }
    split; [split; [tauto | discriminate]|]. split; [tauto|].
    split; [discriminate | tauto].
Qed.

Lemma Phone_init_accepts_ten_unicode_digits_example :
  Phone.init (lit "0123456789") = Ok (mkField (lit "0123456789")).
Proof.
  apply (proj2 (proj2 (proj2
           (Phone_init_accepts_ten_unicode_digits (lit "0123456789"))))).
  split; [reflexivity|].
  repeat constructor; vm_compute; discriminate.
Defined.

(** C3 as stated fails: ten superscript twos are no digits 0-9, yet they
    make a phone. *)
Lemma Phone_init_superscript_twos :
  Phone.init (repeat 178%N 10) = Ok (mkField (repeat 178%N 10))
  /\ ~ Spec.ten_ascii_digits (repeat 178%N 10).
Proof.
  split; [reflexivity|].
  intros [_ A]. inversion A as [|c l H _]; subst.
  unfold Spec.ascii_digit in H. lia.
Qed.

(** ** Dictionaries *)

Lemma Dict_get_setitem_same {V} (d : Dict.t V) (k : str) (v : V) :
  Dict.get (Dict.setitem d k v) k = Some v.
Proof.
  induction d as [|[k' v'] d IH]; simpl.
  - rewrite str_eqb_refl. reflexivity.
  - destruct (str_eqb k' k) eqn:E; simpl; rewrite E; auto.
Qed.

Lemma Dict_get_setitem_other {V} (d : Dict.t V) (k k' : str) (v : V) :
  k' <> k -> Dict.get (Dict.setitem d k v) k' = Dict.get d k'.
Proof.
  intros N. induction d as [|[k0 v0] d IH]; simpl.
  - apply str_eqb_neq in N. destruct (str_eqb k k') eqn:E; auto.
    apply str_eqb_eq in E. subst. rewrite str_eqb_refl in N. discriminate.
  - destruct (str_eqb k0 k) eqn:E; simpl.
    + apply str_eqb_eq in E. subst k0.
      destruct (str_eqb k k') eqn:E'; auto.
      apply str_eqb_eq in E'. congruence.
    + destruct (str_eqb k0 k'); auto.
Qed.

Lemma Dict_setitem_get_id {V} (d : Dict.t V) (k : str) (v : V) :
  Dict.get d k = Some v -> Dict.setitem d k v = d.
Proof.
  induction d as [|[k' v'] d IH]; simpl; [discriminate|].
  destruct (str_eqb k' k); [intros [= ->]; reflexivity|].
  intros H. rewrite IH by exact H. reflexivity.
Qed.

Lemma Dict_get_In_keys {V} (d : Dict.t V) (k : str) :
  In k (Dict.keys d) <-> exists v, Dict.get d k = Some v.
Proof.
  induction d as [|[k' v'] d IH]; simpl.
  - split; [tauto | intros [v H]; discriminate].
  - destruct (str_eqb k' k) eqn:E.
    + apply str_eqb_eq in E. split; eauto.
    + apply str_eqb_neq in E. rewrite <- IH. tauto.
Qed.

Lemma Dict_setitem_split {V} (d : Dict.t V) (k : str) (v : V) :
  NoDup (Dict.keys d) -> In k (Dict.keys d) ->
  exists before old after,
    d = before ++ (k, old) :: after
    /\ Dict.setitem d k v = before ++ (k, v) :: after
    /\ ~ In k (Dict.keys before) /\ ~ In k (Dict.keys after).
Proof.
  induction d as [|[k' v'] d IH]; simpl; [tauto|].
  intros ND HI. inversion ND as [|? ? NI ND']; subst.
  destruct (str_eqb k' k) eqn:E.
  - apply str_eqb_eq in E. subst k'.
    exists [], v', d. simpl. auto.
  - apply str_eqb_neq in E. destruct HI as [HI|HI]; [contradiction|].
    destruct (IH ND' HI) as (b & o & a & -> & -> & Hb & Ha).
    exists ((k', v') :: b), o, a. simpl. repeat split; auto.
    intros [H|H]; auto.
Qed.

(** ** AddressBook.add_record *)

(** C6: adding a record under a name the book already has leaves one
    entry for that name, in the place of the old one, and that entry is
    the record just added, whatever the old record held; the other
    entries are as they were. *)
Theorem add_record_overwrites (book : AddressBook.t) (record : Record.t) :
  NoDup (Dict.keys book) ->
  In (value (Record.name record)) (Dict.keys book) ->
  exists before old after,
    book = before ++ (value (Record.name record), old) :: after
    /\ AddressBook.add_record record book
       = (Ok tt, before ++ (value (Record.name record), record) :: after)
    /\ ~ In (value (Record.name record)) (Dict.keys before)
    /\ ~ In (value (Record.name record)) (Dict.keys after)
    /\ Dict.get (before ++ (value (Record.name record), record) :: after)
         (value (Record.name record)) = Some record.
Proof.
  intros ND HI.
  destruct (Dict_setitem_split book _ record ND HI)
    as (b & o & a & Hb & Hs & Nb & Na).
  exists b, o, a.
  assert (R : AddressBook.add_record record book
              = (Ok tt, Dict.setitem book (value (Record.name record)) record))
    by reflexivity.
  repeat split; auto.
  - rewrite R, Hs. reflexivity.
  - rewrite <- Hs. apply Dict_get_setitem_same.
Qed.

Lemma add_record_overwrites_Alice :
  exists before old after,
    [(lit "Alice", Record.mk (mkField (lit "Alice"))
                     [mkField (lit "1111111111")] None);
     (lit "Bob", Record.init (lit "Bob"))]
    = before ++ (lit "Alice", old) :: after
    /\ AddressBook.add_record (Record.init (lit "Alice"))
         [(lit "Alice", Record.mk (mkField (lit "Alice"))
                          [mkField (lit "1111111111")] None);
          (lit "Bob", Record.init (lit "Bob"))]
       = (Ok tt, before ++ (lit "Alice", Record.init (lit "Alice")) :: after)
    /\ ~ In (lit "Alice") (Dict.keys before)
    /\ ~ In (lit "Alice") (Dict.keys after)
    /\ Dict.get (before ++ (lit "Alice", Record.init (lit "Alice")) :: after)
         (lit "Alice") = Some (Record.init (lit "Alice")).
Proof.
  apply (add_record_overwrites
           [(lit "Alice", Record.mk (mkField (lit "Alice"))
                            [mkField (lit "1111111111")] None);
            (lit "Bob", Record.init (lit "Bob"))]
           (Record.init (lit "Alice"))).
  - repeat constructor; simpl; intuition discriminate.
  - simpl. left. reflexivity.
Defined.

(** ** Record.edit_phone *)

Lemma PyList_setitem_middle {A} (before after : list A) (a v : A) :
  PyList.setitem (before ++ a :: after) (length before) v
  = Ok (before ++ v :: after).
Proof.
  induction before as [|b before IH]; simpl; [reflexivity|].
  rewrite IH. reflexivity.
Qed.

Lemma edit_phone_loop_miss (idx : nat) (rest : list Phone.t)
    (old new : str) (self : Record.t) :
  (forall q, In q rest -> value q <> old) ->
  Record.edit_phone_loop idx rest old new self = (Ok tt, self).
Proof.
  revert idx. induction rest as [|ph rest IH]; intros idx H; simpl.
  - reflexivity.
  - assert (E : str_eqb (value ph) old = false).
    { apply str_eqb_neq. apply H. left. reflexivity. }
    rewrite E. apply IH. intros q Hq. apply H. right. exact Hq.
Qed.

Lemma edit_phone_loop_hit (seen skipped after : list Phone.t) (ph : Phone.t)
    (old new : str) (self : Record.t) :
  Record.phones self = seen ++ skipped ++ ph :: after ->
  (forall q, In q skipped -> value q <> old) ->
  value ph = old ->
  Record.edit_phone_loop (length seen) (skipped ++ ph :: after) old new self
  = match Phone.init new with
    | Ok p =>
        (Ok tt, Record.with_phones self (seen ++ skipped ++ p :: after))
    | Raise e => (Raise e, self)
    end.
Proof.
  intros Hs Hn Hv. revert seen Hs.
  induction skipped as [|s skipped IH]; intros seen Hs.
  - simpl. rewrite Hv, str_eqb_refl.
    unfold State.bind, State.lift, State.get, State.put.
    destruct (Phone.init new) as [p|e]; [|reflexivity].
    simpl in Hs. rewrite Hs, PyList_setitem_middle. reflexivity.
  - simpl. assert (E : str_eqb (value s) old = false).
    { apply str_eqb_neq. apply Hn. left. reflexivity. }
    rewrite E.
    specialize (IH (fun q Hq => Hn q (or_intror Hq)) (seen ++ [s])).
    rewrite length_app in IH. simpl in IH.
    replace (length seen + 1)%nat with (S (length seen)) in IH by lia.
    rewrite IH by (rewrite Hs, <- app_assoc; reflexivity).
    destruct (Phone.init new); [|reflexivity].
    rewrite <- app_assoc. reflexivity.
Qed.

(** C5: [edit_phone(old, new)] looks for the first phone whose text is
    [old]; with one found and [new] a valid phone text, that place holds
    the phone made from [new] and every other place is as before; with
    one found and [new] not valid, the validation error is raised and the
    record is as before; with none found, nothing is raised and the record
    is as before. *)
Theorem edit_phone_replaces_first_match (self : Record.t) (old new : str) :
  (forall before ph after,
      Record.phones self = before ++ ph :: after ->
      value ph = old ->
      (forall q, In q before -> value q <> old) ->
      (Phone.validate_phone new = true ->
       Record.edit_phone old new self
       = (Ok tt, Record.with_phones self (before ++ mkField new :: after)))
      /\ (Phone.validate_phone new = false ->
          Record.edit_phone old new self = (Raise ValueError, self)))
  /\ ((forall q, In q (Record.phones self) -> value q <> old) ->
      Record.edit_phone old new self = (Ok tt, self)).
Proof.
  split.
  - intros before ph after Hp Hv Hn.
    assert (L : Record.edit_phone old new self
                = Record.edit_phone_loop (length (@nil Phone.t))
                    (Record.phones self) old new self) by reflexivity.
    rewrite L, Hp.
    rewrite (edit_phone_loop_hit [] before after ph old new self Hp Hn Hv).
    unfold Phone.init.
    split; intros V; rewrite V; reflexivity.
  - intros Hn. apply (edit_phone_loop_miss 0 _ old new self Hn).
Qed.

Lemma edit_phone_replaces_first_match_example :
  Record.edit_phone (lit "1111111111") (lit "3333333333")
    (Record.mk (mkField (lit "Ann"))
       [mkField (lit "1111111111"); mkField (lit "2222222222")] None)
  = (Ok tt,
     Record.mk (mkField (lit "Ann"))
       [mkField (lit "3333333333"); mkField (lit "2222222222")] None).
Proof.
  apply (proj1 (edit_phone_replaces_first_match
                  (Record.mk (mkField (lit "Ann"))
                     [mkField (lit "1111111111"); mkField (lit "2222222222")]
                     None)
                  (lit "1111111111") (lit "3333333333"))
           [] (mkField (lit "1111111111")) [mkField (lit "2222222222")]).
  - reflexivity.
  - reflexivity.
  - intros q [].
  - reflexivity.
Defined.

(** ** Numerals *)

Lemma in_upto (k : nat) (from n : Z) :
  (from <= n < from + Z.of_nat k)%Z -> In n (Spec.upto k from).
Proof.
  revert from. induction k as [|k IH]; intros from H; simpl; [lia|].
  destruct (Z.eq_dec from n) as [E|E]; [left; exact E|].
  right. apply IH. lia.
Qed.

Lemma below_in_range (k n : Z) :
  (0 <= n < k)%Z -> In n (Spec.upto (Z.to_nat k) 0).
Proof. intros H. apply in_upto. lia. Qed.

Lemma zero_padded_two (n : Z) :
  (0 <= n < 100)%Z -> Unicode.zero_padded 2 (Z.to_N n) = Spec.two_digits n.
Proof.
  intros H.
  assert (C : forallb (fun n => str_eqb (Unicode.zero_padded 2 (Z.to_N n))
                                  (Spec.two_digits n))
                (Spec.upto (Z.to_nat 100) 0) = true)
    by (vm_compute; reflexivity).
  rewrite forallb_forall in C.
  apply str_eqb_eq, C, below_in_range. lia.
Qed.

Lemma zero_padded_four (n : Z) :
  (0 <= n < 10000)%Z -> Unicode.zero_padded 4 (Z.to_N n) = Spec.four_digits n.
Proof.
  intros H.
  assert (C : forallb (fun n => str_eqb (Unicode.zero_padded 4 (Z.to_N n))
                                  (Spec.four_digits n))
                (Spec.upto (Z.to_nat 10000) 0) = true)
    by (vm_compute; reflexivity).
  rewrite forallb_forall in C.
  apply str_eqb_eq, C, below_in_range. lia.
Qed.

Lemma decimal_four (n : Z) :
  (1000 <= n < 10000)%Z -> Unicode.decimal (Z.to_N n) = Spec.four_digits n.
Proof.
  intros H.
  assert (C : forallb (fun n => (n <? 1000)%Z
                                || str_eqb (Unicode.decimal (Z.to_N n))
                                     (Spec.four_digits n))
                (Spec.upto (Z.to_nat 10000) 0) = true)
    by (vm_compute; reflexivity).
  rewrite forallb_forall in C.
  specialize (C n (below_in_range 10000 n ltac:(lia))).
  apply orb_true_iff in C. destruct C as [C|C]; [apply Z.ltb_lt in C; lia|].
  apply str_eqb_eq, C.
Qed.

(** ** Dates *)

Lemma days_in_month_bounds (y m : Z) :
  (1 <= m <= 12)%Z -> (28 <= Date.days_in_month y m <= 31)%Z.
Proof.
  intros H. unfold Date.days_in_month.
  assert (C : (m = 1 \/ m = 2 \/ m = 3 \/ m = 4 \/ m = 5 \/ m = 6 \/ m = 7
               \/ m = 8 \/ m = 9 \/ m = 10 \/ m = 11 \/ m = 12)%Z) by lia.
  repeat (destruct C as [C|C]); subst m; simpl;
    try destruct (Date.is_leap y); simpl; lia.
Qed.

Lemma check_date_fields_real (y m d : Z) :
  Date.check_date_fields y m d = true <-> Spec.real_date (Date.mk y m d).
Proof.
  unfold Date.check_date_fields, Spec.real_date, Date.MINYEAR, Date.MAXYEAR.
  cbn [Date.year Date.month Date.day].
  rewrite !andb_true_iff, !Z.leb_le. tauto.
Qed.

Lemma Date_new_real (y m d : Z) :
  Spec.real_date (Date.mk y m d) -> Date.new y m d = Ok (Date.mk y m d).
Proof.
  intros H. unfold Date.new.
  apply check_date_fields_real in H. rewrite H. reflexivity.
Qed.

Lemma real_date_fields (d : Date.t) :
  Spec.real_date d ->
  (1 <= Date.year d < 10000 /\ 1 <= Date.month d < 100
   /\ 1 <= Date.day d < 100)%Z.
Proof.
  intros (Hy & Hm & Hd).
  pose proof (days_in_month_bounds (Date.year d) (Date.month d) Hm). lia.
Qed.

Lemma isoformat_dashed (d : Date.t) :
  Spec.real_date d -> Date.isoformat d = Spec.dashed d.
Proof.
  intros H. apply real_date_fields in H. destruct H as (Hy & Hm & Hd).
  unfold Date.isoformat, Spec.dashed.
  rewrite zero_padded_four, !zero_padded_two by lia. reflexivity.
Qed.

Lemma strftime_dotted (libc : Date.year_style) (d : Date.t) :
  Spec.real_date d ->
  libc = Date.FourDigitYear \/ (1000 <= Date.year d)%Z ->
  Date.strftime_Ymd libc d = Spec.dotted d.
Proof.
  intros H L. apply real_date_fields in H. destruct H as (Hy & Hm & Hd).
  unfold Date.strftime_Ymd, Spec.dotted.
  rewrite !zero_padded_two by lia.
  destruct libc.
  - rewrite zero_padded_four by lia. reflexivity.
  - destruct L as [L|L]; [discriminate|].
    rewrite decimal_four by lia. reflexivity.
Qed.

(** ** Decimal characters *)

Lemma decimal_runs_from_48 :
  forallb (fun r => (48 <=? fst r) && (fst r <=? snd r)) Unicode.decimal_runs = true.
Proof. vm_compute. reflexivity. Qed.

Lemma decimal_value_isdecimal (c : char) :
  Unicode.isdecimal_char c = true <-> exists v, Unicode.decimal_value c = Some v.
Proof.
  unfold Unicode.isdecimal_char, Unicode.decimal_value. split.
  - intros H. apply existsb_exists in H. destruct H as (r & Hr & Hc).
    destruct (find (Unicode.in_run c) Unicode.decimal_runs) as [[lo hi]|] eqn:F.
    + eauto.
    + exfalso. apply (find_none _ _ F) in Hr. congruence.
  - intros [v H].
    destruct (find (Unicode.in_run c) Unicode.decimal_runs) as [[lo hi]|] eqn:F;
      [|discriminate].
    apply find_some in F. apply existsb_exists. eauto.
Qed.

Lemma decimal_value_range (c : char) (v : Z) :
  Unicode.decimal_value c = Some v -> (0 <= v <= 9)%Z /\ 48 <= c.
Proof.
  unfold Unicode.decimal_value.
  destruct (find (Unicode.in_run c) Unicode.decimal_runs) as [[lo hi]|] eqn:F;
    [|discriminate].
  intros [= <-]. apply find_some in F. destruct F as [Hi Hc].
  pose proof decimal_runs_from_48 as A. rewrite forallb_forall in A.
  specialize (A _ Hi). cbn [fst snd] in A.
  unfold Unicode.in_run in Hc. cbn [fst snd] in Hc.
  apply andb_true_iff in A, Hc. destruct A as [A1 A2], Hc as [L1 L2].
  apply N.leb_le in A1, A2, L1, L2.
  assert (M : (c - lo) mod 10 < 10) by (apply N.mod_lt; lia).
  revert M. generalize ((c - lo) mod 10). intros m M. lia.
Qed.

Lemma ascii_decimal_value (c : char) :
  Spec.ascii_digit c -> Unicode.decimal_value c = Some (Spec.digit_value c).
Proof.
  intros H. unfold Unicode.decimal_value, Unicode.decimal_runs.
  cbn [find]. unfold Unicode.in_run at 1. cbn [fst snd].
  destruct H as [H1 H2].
  rewrite (proj2 (N.leb_le 48 c) H1), (proj2 (N.leb_le c 57) H2).
  cbn [andb]. unfold Spec.digit_value. f_equal. f_equal.
  apply N.mod_small. lia.
Qed.

(** ** The date pattern *)

Section Matching.

#[local] Arguments N.eqb : simpl never.
#[local] Arguments N.leb : simpl never.
#[local] Arguments Unicode.isdecimal_char : simpl never.

Ltac bool_to_prop :=
  repeat match goal with
    | H : (_ && _) = true |- _ => apply andb_true_iff in H; destruct H
    | H : (_ && _) = false |- _ => apply andb_false_iff in H; destruct H
    | H : (_ <=? _) = true |- _ => apply N.leb_le in H
    | H : (_ <=? _) = false |- _ => apply N.leb_gt in H
    | H : (?x =? _) = true |- _ => apply N.eqb_eq in H; try subst x
    | H : (_ =? _) = false |- _ => apply N.eqb_neq in H
    end.

Ltac absurd_chars := solve [exfalso; unfold char in *; lia].

Ltac regex_step :=
  match goal with
  | H : context [match ?l with [] => _ | _ :: _ => _ end] |- _ =>
      is_var l; destruct l
  | H : context [if ?b then _ else _] |- _ => destruct b eqn:?
  end; bool_to_prop; try absurd_chars; cbn in *; try discriminate.

Lemma regex_match_sound (s : str) (f : Strptime.found) :
  Strptime.regex_match s = Some f ->
  Strptime.unconverted f = [] ->
  s = Strptime.grp_Y f ++ [46] ++ Strptime.grp_m f ++ [46] ++ Strptime.grp_d f
  /\ (exists y, Spec.year_text (Strptime.grp_Y f) y)
  /\ (exists m, Spec.month_text (Strptime.grp_m f) m)
  /\ (exists d, Spec.day_text (Strptime.grp_d f) d).
Proof.
  intros H U.
  unfold Strptime.regex_match, Strptime.group_Y, Strptime.group_m,
    Strptime.group_d, Strptime.dot, Strptime.digit, Strptime.cat,
    Strptime.alt, Strptime.one, Strptime.exactly, Strptime.between in H.
  destruct s as [|a [|b [|c [|d [|e rest]]]]]; cbn in H; try discriminate;
    try (destruct (Unicode.isdecimal_char a); cbn in H; discriminate).
  - destruct (Unicode.isdecimal_char a); cbn in H; try discriminate.
    destruct (Unicode.isdecimal_char b); cbn in H; try discriminate.
  - destruct (Unicode.isdecimal_char a); cbn in H; try discriminate.
    destruct (Unicode.isdecimal_char b); cbn in H; try discriminate.
    destruct (Unicode.isdecimal_char c); cbn in H; try discriminate.
  - destruct (Unicode.isdecimal_char a); cbn in H; try discriminate.
    destruct (Unicode.isdecimal_char b); cbn in H; try discriminate.
    destruct (Unicode.isdecimal_char c); cbn in H; try discriminate.
    destruct (Unicode.isdecimal_char d); cbn in H; try discriminate.
  - destruct (Unicode.isdecimal_char a) eqn:Da; cbn in H; try discriminate.
    destruct (Unicode.isdecimal_char b) eqn:Db; cbn in H; try discriminate.
    destruct (Unicode.isdecimal_char c) eqn:Dc; cbn in H; try discriminate.
    destruct (Unicode.isdecimal_char d) eqn:Dd; cbn in H; try discriminate.
    apply decimal_value_isdecimal in Da, Db, Dc, Dd.
    destruct Da as [va Da], Db as [vb Db], Dc as [vc Dc], Dd as [vd Dd].
    assert (Y : exists y, Spec.year_text [a; b; c; d] y)
      by (eexists; constructor; eassumption).
    clear Da Db Dc Dd.
    repeat regex_step.
    all: injection H as <-; cbn in *; try discriminate; subst.
    all: (split; [reflexivity|]; split; [exact Y|]; split).
    all: try (eexists;
              first [ apply Spec.month_ten | apply Spec.month_padded
                    | apply Spec.month_single ];
              unfold char in *; lia).
    all: try (eexists;
              first [ apply Spec.day_thirty | apply Spec.day_padded
                    | apply Spec.day_single | apply Spec.day_blank ];
              unfold char in *; lia).
    all: match goal with
         | E : Unicode.isdecimal_char ?e = true |- _ =>
             apply decimal_value_isdecimal in E; destruct E as [v E];
             eexists; apply Spec.day_teens; [unfold char in *; lia | exact E]
         end.
Qed.

Ltac goal_step :=
  match goal with
  | |- context [if ?b then _ else _] => destruct b eqn:?
  end; bool_to_prop; try absurd_chars; cbn.

Lemma regex_match_complete (Y M D : list N) (y m d : Z) :
  Spec.year_text Y y -> Spec.month_text M m -> Spec.day_text D d ->
  Strptime.regex_match (Y ++ [46] ++ M ++ [46] ++ D)
  = Some (Strptime.mkfound Y M D []).
Proof.
  intros HY HM HD.
  destruct HY as [a b c e va vb vc ve Da Db Dc De].
  assert (Ia : Unicode.isdecimal_char a = true)
    by (apply decimal_value_isdecimal; eauto).
  assert (Ib : Unicode.isdecimal_char b = true)
    by (apply decimal_value_isdecimal; eauto).
  assert (Ic : Unicode.isdecimal_char c = true)
    by (apply decimal_value_isdecimal; eauto).
  assert (Ie : Unicode.isdecimal_char e = true)
    by (apply decimal_value_isdecimal; eauto).
  clear Da Db Dc De.
  unfold Strptime.regex_match, Strptime.group_Y, Strptime.group_m,
    Strptime.group_d, Strptime.dot, Strptime.digit, Strptime.cat,
    Strptime.alt, Strptime.one, Strptime.exactly, Strptime.between.
  cbn. rewrite Ia. cbn. rewrite Ib. cbn. rewrite Ic. cbn. rewrite Ie. cbn.
  clear Ia Ib Ic Ie.
  destruct HM; destruct HD;
    try match goal with
      | E : Unicode.decimal_value ?x = Some _ |- _ =>
          let I := fresh "I" in
          assert (I : Unicode.isdecimal_char x = true)
            by (apply decimal_value_isdecimal; eauto);
          pose proof (proj2 (decimal_value_range _ _ E)); clear E
      end;
    cbn; repeat goal_step; try reflexivity.
  all: try congruence.
Qed.

End Matching.

Lemma lstrip_space_digit (c : char) (s : str) :
  48 <= c -> Unicode.lstrip_space (c :: s) = c :: s.
Proof.
  intros H. cbn [Unicode.lstrip_space].
  destruct (c =? 32) eqn:E; [|reflexivity].
  apply N.eqb_eq in E. unfold char in *. lia.
Qed.

Lemma int_digit_led (c : char) (s : str) :
  48 <= c -> Unicode.int (c :: s) = Unicode.int_digits (c :: s) 0%Z.
Proof.
  intros H. unfold Unicode.int. rewrite lstrip_space_digit by exact H.
  reflexivity.
Qed.

Lemma int_year_text (Y : str) (y : Z) :
  Spec.year_text Y y -> Unicode.int Y = Ok y.
Proof.
  intros [a b c d va vb vc vd Da Db Dc Dd].
  rewrite int_digit_led by (apply (decimal_value_range a va Da)).
  cbn [Unicode.int_digits]. rewrite Da, Db, Dc, Dd. f_equal. lia.
Qed.

Lemma int_month_text (M : str) (m : Z) :
  Spec.month_text M m -> Unicode.int M = Ok m.
Proof.
  intros [c H|c H|c H]; (rewrite int_digit_led by (unfold char in *; lia));
    cbn [Unicode.int_digits];
    rewrite ?(ascii_decimal_value 49), ?(ascii_decimal_value 48),
      ?(ascii_decimal_value c)
      by (unfold Spec.ascii_digit, char in *; lia);
    f_equal; unfold Spec.digit_value; unfold char in *; lia.
Qed.

Lemma int_day_text (D : str) (d : Z) :
  Spec.day_text D d -> Unicode.int D = Ok d.
Proof.
  intros [c H|c e v H E|c H|c H|c H].
  5: { unfold Unicode.int. cbn [Unicode.lstrip_space].
       change (32 =? 32) with true. cbv iota.
       destruct (c =? 32) eqn:E; [apply N.eqb_eq in E; unfold char in *; lia|].
       cbn [Unicode.int_digits].
       rewrite (ascii_decimal_value c)
         by (unfold Spec.ascii_digit, char in *; lia).
       reflexivity. }
  all: (rewrite int_digit_led by (unfold char in *; lia));
    cbn [Unicode.int_digits];
    rewrite ?(ascii_decimal_value 51), ?(ascii_decimal_value 48),
      ?(ascii_decimal_value c), ?E
      by (unfold Spec.ascii_digit, char in *; lia);
    f_equal; unfold Spec.digit_value; unfold char in *; lia.
Qed.

Lemma strptime_accepts (s : str) (d : Date.t) :
  Spec.accepted_text s d -> Strptime.strptime s = Ok d.
Proof.
  intros (Y & M & D & y & m & dd & -> & HY & HM & HD & -> & R).
  unfold Strptime.strptime.
  rewrite (regex_match_complete Y M D y m dd HY HM HD).
  cbn [Strptime.unconverted Strptime.grp_Y Strptime.grp_m Strptime.grp_d].
  rewrite (int_year_text Y y HY), (int_month_text M m HM),
    (int_day_text D dd HD).
  cbn [Py.bind]. apply Date_new_real. exact R.
Qed.

Lemma strptime_sound (s : str) (d : Date.t) :
  Strptime.strptime s = Ok d -> Spec.accepted_text s d.
Proof.
  unfold Strptime.strptime.
  destruct (Strptime.regex_match s) as [f|] eqn:F; [|discriminate].
  destruct (Strptime.unconverted f) eqn:U; [|discriminate].
  destruct (regex_match_sound s f F U) as (Hs & [y HY] & [m HM] & [dd HD]).
  rewrite (int_year_text _ y HY), (int_month_text _ m HM),
    (int_day_text _ dd HD).
  cbn [Py.bind]. unfold Date.new.
  destruct (Date.check_date_fields y m dd) eqn:C; [|discriminate].
  intros [= <-]. apply check_date_fields_real in C.
  exists (Strptime.grp_Y f), (Strptime.grp_m f), (Strptime.grp_d f), y, m, dd.
  repeat split; auto; apply C.
Qed.

Lemma strptime_raises_ValueError (s : str) (e : exn) :
  Strptime.strptime s = Raise e -> e = ValueError.
Proof.
  unfold Strptime.strptime.
  destruct (Strptime.regex_match s) as [f|] eqn:F; [|congruence].
  destruct (Strptime.unconverted f) eqn:U; [|congruence].
  destruct (regex_match_sound s f F U) as (Hs & [y HY] & [m HM] & [dd HD]).
  rewrite (int_year_text _ y HY), (int_month_text _ m HM),
    (int_day_text _ dd HD).
  cbn [Py.bind]. unfold Date.new.
  destruct (Date.check_date_fields y m dd); congruence.
Qed.

Lemma Birthday_init_Ok (s : str) (d : Date.t) :
  Birthday.init s = Ok (mkField d) <-> Spec.accepted_text s d.
Proof.
  unfold Birthday.init. split.
  - destruct (Strptime.strptime s) as [d'|e] eqn:P.
    + intros [= ->]. apply strptime_sound, P.
    + destruct e; discriminate.
  - intros A. rewrite (strptime_accepts s d A). reflexivity.
Qed.

Lemma Birthday_init_Raise (s : str) :
  Birthday.init s = Raise ValueError <-> ~ exists d, Spec.accepted_text s d.
Proof.
  unfold Birthday.init. split.
  - intros H [d A]. rewrite (strptime_accepts s d A) in H. discriminate.
  - intros N. destruct (Strptime.strptime s) as [d|e] eqn:P.
    + exfalso. apply N. exists d. apply strptime_sound, P.
    + apply strptime_raises_ValueError in P. subst e. reflexivity.
Qed.

Lemma digit_value_range (c : char) :
  Spec.ascii_digit c ->
  (0 <= Spec.digit_value c <= 9)%Z /\ (48 + Z.to_N (Spec.digit_value c)) = c.
Proof. unfold Spec.ascii_digit, Spec.digit_value, char. lia. Qed.

Lemma exact_YMD_accepted (s : str) (d : Date.t) :
  Spec.exact_YMD s d -> Spec.real_date d -> Spec.accepted_text s d.
Proof.
  intros [y1 y2 y3 y4 m1 m2 d1 d2 A] R.
  repeat match goal with
         | H : Forall _ (_ :: _) |- _ =>
             let a := fresh "A" in inversion H as [|? ? a ?]; subst; clear H
         end.
  pose proof (real_date_fields _ R) as (By & Bm & Bd).
  destruct R as (_ & Rm & Rd).
  cbn [Date.year Date.month Date.day] in *.
  exists [y1; y2; y3; y4], [m1; m2], [d1; d2].
  eexists. exists (10 * Spec.digit_value m1 + Spec.digit_value m2)%Z,
    (10 * Spec.digit_value d1 + Spec.digit_value d2)%Z.
  split; [reflexivity|].
  split; [constructor; apply ascii_decimal_value; assumption|].
  pose proof (digit_value_range m1 ltac:(assumption)) as [? ?].
  pose proof (digit_value_range m2 ltac:(assumption)) as [? ?].
  pose proof (digit_value_range d1 ltac:(assumption)) as [? ?].
  pose proof (digit_value_range d2 ltac:(assumption)) as [? ?].
  split; [|split; [|split; [reflexivity|]]].
  - assert (C : m1 = 48 \/ m1 = 49)
      by (unfold Spec.digit_value, char in *; lia).
    destruct C as [-> | ->].
    + change (Spec.digit_value 48) with 0%Z.
      replace (10 * 0 + Spec.digit_value m2)%Z with (Spec.digit_value m2) by lia.
      apply Spec.month_padded. unfold Spec.digit_value, char in *. lia.
    + change (Spec.digit_value 49) with 1%Z.
      apply Spec.month_ten. unfold Spec.digit_value, char in *. lia.
  - pose proof (days_in_month_bounds
                  (1000 * Spec.digit_value y1 + 100 * Spec.digit_value y2
                   + 10 * Spec.digit_value y3 + Spec.digit_value y4)%Z
                  _ Rm) as Bdim.
    assert (C : d1 = 48 \/ (49 <= d1 <= 50) \/ d1 = 51)
      by (unfold Spec.digit_value, char in *; lia).
    destruct C as [-> | [C | ->]].
    + change (Spec.digit_value 48) with 0%Z.
      replace (10 * 0 + Spec.digit_value d2)%Z with (Spec.digit_value d2) by lia.
      apply Spec.day_padded. unfold Spec.digit_value, char in *. lia.
    + apply Spec.day_teens; [exact C|].
      apply ascii_decimal_value. assumption.
    + change (Spec.digit_value 51) with 3%Z.
      apply Spec.day_thirty. unfold Spec.digit_value, char in *. lia.
  - repeat split; cbn [Date.year Date.month Date.day]; lia.
Qed.

(** ** Birthday *)

Lemma exact_YMD_dotted (s : str) (d : Date.t) :
  Spec.exact_YMD s d -> Spec.real_date d -> Spec.dotted d = s.
Proof.
  intros [y1 y2 y3 y4 m1 m2 d1 d2 A] R.
  repeat match goal with
         | H : Forall _ (_ :: _) |- _ =>
             let a := fresh "A" in inversion H as [|? ? a ?]; subst; clear H
         end.
  clear R.
  repeat match goal with
         | H : Spec.ascii_digit ?c |- _ =>
             let B := fresh "B" in let E := fresh "E" in
             destruct (digit_value_range c H) as [B E]; clear H;
             revert B E; generalize (Spec.digit_value c); intros ? B E
         end.
  unfold Spec.dotted, Spec.four_digits, Spec.two_digits.
  cbn [Date.year Date.month Date.day app lit map list_ascii_of_string].
  repeat f_equal; unfold char in *; subst; f_equal;
    Z.to_euclidean_division_equations; lia.
Qed.

(** C4, as the code has it: a birthday is built exactly from the texts
    the date parser reads as year, dot, month, dot, day and that denote a
    real date from year 1 on: the year in four decimal digits, the month
    as 1..9, 01..09 or 10..12, the day as 1..9, 01..09, 10..31 or a blank
    followed by 1..9.  Every such text gives the date it denotes, every
    other text raises the validation error, and a text in the exact
    pattern YYYY.MM.DD of a real date is among those accepted. *)
Theorem Birthday_init_accepts_parser_texts (s : str) :
  (forall d, Birthday.init s = Ok (mkField d) <-> Spec.accepted_text s d)
  /\ (Birthday.init s = Raise ValueError
      <-> ~ exists d, Spec.accepted_text s d)
  /\ (forall d, Spec.exact_YMD s d -> Spec.real_date d ->
                Birthday.init s = Ok (mkField d)).
Proof.
  split; [intros d; apply Birthday_init_Ok|].
  split; [apply Birthday_init_Raise|].
  intros d E R. apply Birthday_init_Ok, exact_YMD_accepted; assumption.
Qed.

Lemma Birthday_init_accepts_parser_texts_example :
  Birthday.init (lit "2024.02.29") = Ok (mkField (Date.mk 2024 2 29)).
Proof.
  apply (proj2 (proj2 (Birthday_init_accepts_parser_texts (lit "2024.02.29")))
           (Date.mk 2024 2 29)).
  - apply (Spec.exact_YMD_intro 50 48 50 52 48 50 50 57).
    repeat constructor; vm_compute; discriminate.
  - repeat split; vm_compute; discriminate.
Defined.

(** C4 as stated fails: a one-digit month and day are accepted, though
    the text is not in the pattern YYYY.MM.DD. *)
Lemma Birthday_init_short_month_and_day :
  Birthday.init (lit "2024.1.5") = Ok (mkField (Date.mk 2024 1 5))
  /\ ~ exists d, Spec.exact_YMD (lit "2024.1.5") d.
Proof.
  split; [vm_compute; reflexivity|].
  intros [d E]. inversion E.
Qed.

(** C8, as the code has it: a text in the exact pattern YYYY.MM.DD of a
    real date always builds the birthday of that date, and rendering the
    stored date with [strftime("%Y.%m.%d")] gives the text back when the
    year has four significant digits (1000 and later) or the C library
    pads the year to four digits. *)
Theorem Birthday_round_trip (s : str) (d : Date.t) :
  Spec.exact_YMD s d -> Spec.real_date d ->
  Birthday.init s = Ok (mkField d)
  /\ forall libc,
       libc = Date.FourDigitYear \/ (1000 <= Date.year d)%Z ->
       Date.strftime_Ymd libc (value (mkField d)) = s.
Proof.
  intros E R. split.
  - apply Birthday_init_Ok, exact_YMD_accepted; assumption.
  - intros libc L. cbn [value].
    rewrite (strftime_dotted libc d R L). apply exact_YMD_dotted; assumption.
Qed.

Lemma Birthday_round_trip_leap_day :
  Birthday.init (lit "2024.02.29") = Ok (mkField (Date.mk 2024 2 29))
  /\ forall libc,
       libc = Date.FourDigitYear \/ (1000 <= 2024)%Z ->
       Date.strftime_Ymd libc (value (mkField (Date.mk 2024 2 29)))
       = lit "2024.02.29".
Proof.
  apply (Birthday_round_trip (lit "2024.02.29") (Date.mk 2024 2 29)).
  - apply (Spec.exact_YMD_intro 50 48 50 52 48 50 50 57).
    repeat constructor; unfold Spec.ascii_digit; lia.
  - repeat split; vm_compute; discriminate.
Defined.

(** C8 as stated fails where the C library prints the year as a plain
    decimal: the birthday of year 999 is built from ["0999.01.01"] and
    rendered as ["999.01.01"]. *)
Lemma Birthday_round_trip_loses_leading_zero :
  Spec.exact_YMD (lit "0999.01.01") (Date.mk 999 1 1)
  /\ Spec.real_date (Date.mk 999 1 1)
  /\ Birthday.init (lit "0999.01.01") = Ok (mkField (Date.mk 999 1 1))
  /\ Date.strftime_Ymd Date.PlainYear (Date.mk 999 1 1) = lit "999.01.01"
  /\ Date.strftime_Ymd Date.PlainYear (Date.mk 999 1 1) <> lit "0999.01.01".
Proof.
  split.
  { apply (Spec.exact_YMD_intro 48 57 57 57 48 49 48 49).
    repeat constructor; unfold Spec.ascii_digit; lia. }
  split; [repeat split; vm_compute; discriminate|].
  split; [vm_compute; reflexivity|].
  split; [vm_compute; reflexivity|].
  vm_compute. discriminate.
Qed.

(** ** Record.__str__ *)

Lemma decimal_loop_digits (fuel : nat) (n : N) (acc : str) :
  Forall Spec.ascii_digit acc ->
  Forall Spec.ascii_digit (Unicode.decimal_loop fuel n acc).
Proof.
  revert n acc. induction fuel as [|fuel IH]; intros n acc H; simpl; [exact H|].
  assert (D : Spec.ascii_digit (48 + n mod 10)).
  { assert (M : n mod 10 < 10) by (apply N.mod_lt; lia).
    revert M. generalize (n mod 10). unfold Spec.ascii_digit. intros; lia. }
  destruct (n / 10 =? 0); [constructor; assumption|].
  apply IH. constructor; assumption.
Qed.

Lemma zero_padded_digits (width : nat) (n : N) :
  Forall Spec.ascii_digit (Unicode.zero_padded width n).
Proof.
  unfold Unicode.zero_padded. apply Forall_app. split.
  - apply Forall_forall. intros c H. apply repeat_spec in H. subst c.
    unfold Spec.ascii_digit. lia.
  - apply decimal_loop_digits. constructor.
Qed.

Lemma strftime_has_no_dash (libc : Date.year_style) (d : Date.t) :
  ~ In 45 (Date.strftime_Ymd libc d).
Proof.
  assert (F : Forall (fun c => c <> 45) (Date.strftime_Ymd libc d)).
  { unfold Date.strftime_Ymd.
    assert (W : forall l, Forall Spec.ascii_digit l -> Forall (fun c => c <> 45) l).
    { intros l. apply Forall_impl. unfold Spec.ascii_digit. intros; lia. }
    apply Forall_app; split.
    { destruct libc; apply W;
        [apply zero_padded_digits | apply decimal_loop_digits; constructor]. }
    apply Forall_app; split; [repeat constructor; discriminate|].
    apply Forall_app; split; [apply W, zero_padded_digits|].
    apply Forall_app; split; [repeat constructor; discriminate|].
    apply W, zero_padded_digits. }
  rewrite Forall_forall in F. intros H. apply (F _ H). reflexivity.
Qed.

Lemma dashed_has_dash (d : Date.t) : In 45 (Spec.dashed d).
Proof.
  unfold Spec.dashed, Spec.four_digits. cbn. do 4 right. left. reflexivity.
Qed.

(** C10: the one-line summary of a record shows a birthday that is set
    as the date's own text, YYYY-MM-DD with dashes, which is never the
    dotted text [strftime("%Y.%m.%d")] gives for it; with no birthday it
    shows the words No birthday. *)
Theorem Record_str_birthday (r : Record.t) :
  (forall b, Record.birthday r = Some b -> Spec.real_date (value b) ->
     to_str r
     = lit "Contact name: " ++ value (Record.name r) ++ lit ", phones: "
       ++ join (lit ", ") (map value (Record.phones r))
       ++ lit ", birthday: " ++ Spec.dashed (value b)
     /\ forall libc, Spec.dashed (value b) <> Date.strftime_Ymd libc (value b))
  /\ (Record.birthday r = None ->
      to_str r
      = lit "Contact name: " ++ value (Record.name r) ++ lit ", phones: "
        ++ join (lit ", ") (map value (Record.phones r))
        ++ lit ", birthday: " ++ lit "No birthday").
Proof.
  unfold to_str, Str_record, Record.to_string, Field_str, to_str, Str_str.
  split.
  - intros b Hb R. rewrite Hb. unfold Str_date.
    rewrite (isoformat_dashed _ R). split.
    + rewrite map_ext with (g := value) by reflexivity. reflexivity.
    + intros libc E. apply (strftime_has_no_dash libc (value b)).
      rewrite <- E. apply dashed_has_dash.
  - intros Hb. rewrite Hb.
    rewrite map_ext with (g := value) by reflexivity. reflexivity.
Qed.

Lemma Record_str_birthday_example :
  to_str (Record.mk (mkField (lit "Bob")) [mkField (lit "1234567890")]
            (Some (mkField (Date.mk 2099 1 1))))
  = lit "Contact name: Bob, phones: 1234567890, birthday: 2099-01-01"
  /\ forall libc,
       lit "2099-01-01" <> Date.strftime_Ymd libc (Date.mk 2099 1 1).
Proof.
  apply (proj1 (Record_str_birthday
                  (Record.mk (mkField (lit "Bob")) [mkField (lit "1234567890")]
                     (Some (mkField (Date.mk 2099 1 1)))))
           (mkField (Date.mk 2099 1 1))).
  - reflexivity.
  - repeat split; vm_compute; discriminate.
Defined.

Section Upcoming.

Local Open Scope Z_scope.

(** ** AddressBook.get_upcoming_birthdays *)

Lemma Date_new_raises_ValueError (y m d : Z) (e : exn) :
  Date.new y m d = Raise e -> e = ValueError.
Proof. unfold Date.new. destruct (Date.check_date_fields y m d); congruence. Qed.

Lemma visit_raises_ValueError (libc : Date.year_style) (today : Date.t)
    (days : Z) (acc : list AddressBook.entry) (r : Record.t) (e : exn) :
  AddressBook.visit libc today days acc r = Raise e -> e = ValueError.
Proof.
  unfold AddressBook.visit, Date.replace_year.
  destruct (Record.birthday r) as [b|]; [|discriminate].
  destruct (Date.new (Date.year today) (Date.month (value b)) (Date.day (value b)))
    as [d|e1] eqn:N1; cbn [Py.bind];
    [|intros [= <-]; apply (Date_new_raises_ValueError _ _ _ _ N1)].
  destruct (Date.ltb d today).
  - destruct (Date.new (Date.year today + 1) (Date.month d) (Date.day d))
      as [d'|e2] eqn:N2; cbn [Py.bind];
      [|intros [= <-]; apply (Date_new_raises_ValueError _ _ _ _ N2)].
    destruct ((0 <=? Date.sub_days d' today) && (Date.sub_days d' today <=? days));
      discriminate.
  - cbn [Py.bind].
    destruct ((0 <=? Date.sub_days d today) && (Date.sub_days d today <=? days));
      discriminate.
Qed.

Lemma visit_all_raises (libc : Date.year_style) (today : Date.t) (days : Z)
    (records : list Record.t) (r : Record.t) :
  In r records ->
  (forall acc, AddressBook.visit libc today days acc r = Raise ValueError) ->
  forall acc, AddressBook.visit_all libc today days acc records
              = Raise ValueError.
Proof.
  intros HI HR. induction records as [|r' records IH]; [destruct HI|].
  intros acc. cbn [AddressBook.visit_all].
  destruct (AddressBook.visit libc today days acc r') as [acc'|e] eqn:V;
    cbn [Py.bind].
  - destruct HI as [->|HI]; [rewrite HR in V; discriminate|].
    apply IH, HI.
  - apply visit_raises_ValueError in V. subst e. reflexivity.
Qed.

Lemma leap_day_missing (y : Z) :
  Date.is_leap y = false -> Date.new y 2 29 = Raise ValueError.
Proof.
  intros L. unfold Date.new, Date.check_date_fields, Date.days_in_month.
  rewrite L. cbn. rewrite !andb_false_r. reflexivity.
Qed.

Lemma leap_years_apart (y : Z) :
  Date.is_leap y = true -> Date.is_leap (y + 1) = false.
Proof.
  unfold Date.is_leap. intros H. apply andb_true_iff in H. destruct H as [H _].
  apply Z.eqb_eq in H.
  assert (E : ((y + 1) mod 4 =? 0) = false).
  { apply Z.eqb_neq. Z.to_euclidean_division_equations. lia. }
  rewrite E. reflexivity.
Qed.

(** C2 fails on the code: with a 29 February birthday in the book the
    query raises instead of returning, whenever the current year is not
    a leap year, and also once 29 February has passed in a leap year,
    because the date is then moved to the next year. *)
Theorem get_upcoming_birthdays_raises_on_leap_day
    (libc : Date.year_style) (today : Date.t) (days : Z)
    (book : AddressBook.t) (r : Record.t) (y : Z) :
  In r (Dict.values book) ->
  Record.birthday r = Some (mkField (Date.mk y 2 29)) ->
  Date.is_leap (Date.year today) = false
  \/ Date.ltb (Date.mk (Date.year today) 2 29) today = true ->
  AddressBook.get_upcoming_birthdays libc today book days = Raise ValueError.
Proof.
  intros HI HB HT. unfold AddressBook.get_upcoming_birthdays.
  apply (visit_all_raises libc today days _ r HI). intros acc.
  unfold AddressBook.visit, Date.replace_year. rewrite HB.
  cbn [value Date.month Date.day].
  destruct (Date.is_leap (Date.year today)) eqn:L.
  - destruct HT as [HT|HT]; [discriminate|].
    unfold Date.new at 1.
    destruct (Date.check_date_fields (Date.year today) 2 29);
      [|reflexivity].
    cbn [Py.bind]. rewrite HT. cbn [Date.month Date.day].
    rewrite (leap_day_missing _ (leap_years_apart _ L)). reflexivity.
  - rewrite (leap_day_missing _ L). reflexivity.
Qed.

Lemma get_upcoming_birthdays_raises_on_leap_day_2023 :
  AddressBook.get_upcoming_birthdays Date.FourDigitYear (Date.mk 2023 2 27)
    [(lit "Bob", Record.mk (mkField (lit "Bob")) []
                   (Some (mkField (Date.mk 2000 2 29))))] 7
  = Raise ValueError.
Proof.
  apply (get_upcoming_birthdays_raises_on_leap_day Date.FourDigitYear
           (Date.mk 2023 2 27) 7 _
           (Record.mk (mkField (lit "Bob")) []
              (Some (mkField (Date.mk 2000 2 29)))) 2000).
  - simpl. left. reflexivity.
  - reflexivity.
  - left. reflexivity.
Defined.

Lemma visit_all_upcoming (libc : Date.year_style) (today : Date.t) (days : Z)
    (records : list Record.t) :
  (forall r b, In r records -> Record.birthday r = Some b ->
               Spec.rolls today (value b)) ->
  forall acc,
    AddressBook.visit_all libc today days acc records
    = Ok (acc ++ Spec.upcoming libc today days records).
Proof.
  induction records as [|r records IH]; intros H acc.
  - simpl. rewrite app_nil_r. reflexivity.
  - cbn [AddressBook.visit_all Spec.upcoming flat_map].
    assert (V : AddressBook.visit libc today days acc r
                = Ok (acc ++ match Record.birthday r with
                             | Some b =>
                                 if (0 <=? Spec.delta today (value b))
                                    && (Spec.delta today (value b) <=? days)
                                 then [AddressBook.mkentry
                                         (value (Record.name r))
                                         (Date.strftime_Ymd libc
                                            (Spec.rolled today (value b)))]
                                 else []
                             | None => []
                             end)).
    { unfold AddressBook.visit, Date.replace_year.
      destruct (Record.birthday r) as [b|] eqn:B;
        [|rewrite app_nil_r; reflexivity].
      destruct (H r b (or_introl eq_refl) B) as [R1 R2].
      unfold Spec.delta, Spec.rolled in *.
      rewrite (Date_new_real _ _ _ R1). cbn [Py.bind].
      fold (Spec.this_year today (value b)).
      destruct (Date.ltb (Spec.this_year today (value b)) today).
      - cbn [Spec.this_year Date.month Date.day].
        rewrite (Date_new_real _ _ _ R2). cbn [Py.bind].
        unfold Date.sub_days.
        destruct ((0 <=? _) && _); [reflexivity | rewrite app_nil_r; reflexivity].
      - cbn [Py.bind]. unfold Date.sub_days.
        destruct ((0 <=? _) && _); [reflexivity | rewrite app_nil_r; reflexivity]. }
    rewrite V. cbn [Py.bind].
    rewrite IH by (intros r' b' Hr'; apply H; right; exact Hr').
    rewrite <- app_assoc. reflexivity.
Qed.

(** Where every birthday in the book has a date in the current year
    and, once passed, in the next, the query returns what is asked of it:
    name and rolled date of the records whose day count is within 0 and
    [days], in the order of the book. *)
Lemma get_upcoming_birthdays_when_dates_exist
    (libc : Date.year_style) (today : Date.t) (days : Z)
    (book : AddressBook.t) :
  (forall r b, In r (Dict.values book) -> Record.birthday r = Some b ->
               Spec.rolls today (value b)) ->
  AddressBook.get_upcoming_birthdays libc today book days
  = Ok (Spec.upcoming libc today days (Dict.values book)).
Proof.
  intros H. unfold AddressBook.get_upcoming_birthdays.
  rewrite (visit_all_upcoming libc today days _ H []). reflexivity.
Qed.

(** C1 fails on the code beside a 29 February birthday: on 10 May 2023
    Ann's birthday of 12 May is two days ahead and is reported when she
    is alone in the book, but with Bob, born on 29 February, in the same
    book the query raises and reports nobody. *)
Theorem get_upcoming_birthdays_loses_entry_beside_leap_day
    (libc : Date.year_style) :
  Spec.delta (Date.mk 2023 5 10) (Date.mk 1990 5 12) = 2
  /\ AddressBook.get_upcoming_birthdays libc (Date.mk 2023 5 10)
       [(lit "Ann", Record.mk (mkField (lit "Ann")) []
                      (Some (mkField (Date.mk 1990 5 12))))] 7
     = Ok [AddressBook.mkentry (lit "Ann") (lit "2023.05.12")]
  /\ AddressBook.get_upcoming_birthdays libc (Date.mk 2023 5 10)
       [(lit "Ann", Record.mk (mkField (lit "Ann")) []
                      (Some (mkField (Date.mk 1990 5 12))));
        (lit "Bob", Record.mk (mkField (lit "Bob")) []
                      (Some (mkField (Date.mk 2000 2 29))))] 7
     = Raise ValueError.
Proof. destruct libc; repeat split; vm_compute; reflexivity. Qed.

End Upcoming.

Import Handlers.

(** ** Handlers *)

Ltac run_handler :=
  unfold add_contact, change_contact, show_phone, show_all_contacts,
    add_birthday, show_birthday, birthdays, on_record, on_local,
    AddressBook.add_record, State.bind, State.lift, State.get, State.put,
    State.ret, State.raise, PyList.getitem;
  cbn [length Nat.ltb Nat.leb nth_error fst snd].

Lemma edit_phone_loop_outcome (seen rest : list Phone.t) (old new : str)
    (self : Record.t) :
  Record.phones self = seen ++ rest ->
  fst (Record.edit_phone_loop (length seen) rest old new self) = Ok tt
  \/ Record.edit_phone_loop (length seen) rest old new self
     = (Raise ValueError, self).
Proof.
  revert seen. induction rest as [|ph rest IH]; intros seen Hs; simpl.
  - left. reflexivity.
  - destruct (str_eqb (value ph) old).
    + unfold State.bind, State.lift, State.get, State.put, Phone.init.
      destruct (Phone.validate_phone new); cbn [negb]; [|right; reflexivity].
      rewrite Hs, PyList_setitem_middle. left. reflexivity.
    + specialize (IH (seen ++ [ph])). rewrite length_app in IH. simpl in IH.
      replace (length seen + 1)%nat with (S (length seen)) in IH by lia.
      apply IH. rewrite Hs, <- app_assoc. reflexivity.
Qed.

Lemma edit_phone_outcome (old new : str) (self : Record.t) :
  fst (Record.edit_phone old new self) = Ok tt
  \/ Record.edit_phone old new self = (Raise ValueError, self).
Proof. apply (edit_phone_loop_outcome [] (Record.phones self)). reflexivity. Qed.

Lemma add_phone_outcome (phone : str) (self : Record.t) :
  Record.add_phone phone self
  = if Phone.validate_phone phone
    then (Ok tt, Record.with_phones self (Record.phones self ++ [mkField phone]))
    else (Raise ValueError, self).
Proof.
  unfold Record.add_phone, State.bind, State.lift, State.get, State.put,
    Phone.init.
  destruct (Phone.validate_phone phone); reflexivity.
Qed.

Lemma Birthday_init_outcome (s : str) :
  (exists b, Birthday.init s = Ok b) \/ Birthday.init s = Raise ValueError.
Proof.
  unfold Birthday.init.
  destruct (Strptime.strptime s) as [d|e] eqn:P; [left; eauto|].
  apply strptime_raises_ValueError in P. subst e. right. reflexivity.
Qed.

Lemma add_birthday_outcome (s : str) (self : Record.t) :
  (exists b, Birthday.init s = Ok b
             /\ Record.add_birthday s self
                = (Ok tt, Record.with_birthday self (Some b)))
  \/ (Birthday.init s = Raise ValueError
      /\ Record.add_birthday s self = (Raise ValueError, self)).
Proof.
  unfold Record.add_birthday, State.bind, State.lift, State.get, State.put.
  destruct (Birthday_init_outcome s) as [[b E]|E]; rewrite E; eauto.
Qed.

Lemma Dict_contains_get {V} (d : Dict.t V) (k : str) :
  Dict.contains d k = true <-> exists v, Dict.get d k = Some v.
Proof.
  unfold Dict.contains. destruct (Dict.get d k); split; eauto.
  - discriminate.
  - intros [v H]. discriminate.
Qed.

(** What each handler does, case by case. *)

Lemma add_contact_outcome (args : list str) (book : AddressBook.t) :
  match args with
  | name :: phone :: _ =>
      if Phone.validate_phone phone
      then fst (add_contact args book)
           = Ok (lit "Contact " ++ name ++ lit " added with phone number "
                 ++ phone ++ lit ".")
      else add_contact args book = (Raise ValueError, book)
  | _ => add_contact args book = (Raise ValueError, book)
  end.
Proof.
  destruct args as [|name [|phone rest]]; try reflexivity.
  run_handler.
  destruct (Dict.contains book name) eqn:C.
  - apply Dict_contains_get in C. destruct C as [r G]. rewrite G.
    rewrite add_phone_outcome.
    destruct (Phone.validate_phone phone); [reflexivity|].
    rewrite (Dict_setitem_get_id _ _ _ G). reflexivity.
  - rewrite add_phone_outcome.
    destruct (Phone.validate_phone phone); reflexivity.
Qed.

Lemma change_contact_outcome (args : list str) (book : AddressBook.t) :
  match args with
  | name :: old_phone :: new_phone :: _ =>
      match Dict.get book name with
      | Some r =>
          fst (change_contact args book)
          = Ok (lit "Phone number for " ++ name ++ lit " updated to "
                ++ new_phone ++ lit ".")
          \/ (Record.edit_phone old_phone new_phone r = (Raise ValueError, r)
              /\ change_contact args book = (Raise ValueError, book))
      | None => change_contact args book = (Raise KeyError, book)
      end
  | _ => change_contact args book = (Raise ValueError, book)
  end.
Proof.
  destruct args as [|name [|old [|new rest]]]; try reflexivity.
  run_handler.
  destruct (Dict.get book name) as [r|] eqn:G; [|reflexivity].
  rewrite G.
  destruct (edit_phone_outcome old new r) as [E|E].
  - left. destruct (Record.edit_phone old new r) as [[[]|e] r'];
      [reflexivity | discriminate].
  - right. rewrite E. rewrite (Dict_setitem_get_id _ _ _ G). auto.
Qed.

Lemma add_birthday_handler_outcome (args : list str) (book : AddressBook.t) :
  match args with
  | name :: birthday :: _ =>
      match Dict.get book name with
      | Some r =>
          match Birthday.init birthday with
          | Ok _ =>
              fst (add_birthday args book)
              = Ok (lit "Birthday for " ++ name ++ lit " added: " ++ birthday)
          | Raise _ => add_birthday args book = (Raise ValueError, book)
          end
      | None => add_birthday args book = (Raise KeyError, book)
      end
  | _ => add_birthday args book = (Raise ValueError, book)
  end.
Proof.
  destruct args as [|name [|birthday rest]]; try reflexivity.
  run_handler.
  destruct (Dict.get book name) as [r|] eqn:G; [|reflexivity].
  rewrite G.
  destruct (add_birthday_outcome birthday r) as [(b & E1 & E2)|[E1 E2]];
    rewrite E1, E2; [reflexivity|].
  rewrite (Dict_setitem_get_id _ _ _ G). reflexivity.
Qed.

Lemma show_phone_outcome (args : list str) (book : AddressBook.t) :
  snd (show_phone args book) = book
  /\ match args with
     | [] => fst (show_phone args book) = Raise IndexError
     | name :: _ =>
         Dict.get book name = None ->
         fst (show_phone args book) = Raise KeyError
     end.
Proof.
  destruct args as [|name rest]; run_handler; [split; reflexivity|].
  destruct (Dict.get book name); split; try reflexivity; discriminate.
Qed.

Lemma show_birthday_outcome (libc : Date.year_style) (args : list str)
    (book : AddressBook.t) :
  snd (show_birthday libc args book) = book
  /\ match args with
     | [] => fst (show_birthday libc args book) = Raise IndexError
     | name :: _ =>
         Dict.get book name = None ->
         fst (show_birthday libc args book) = Raise KeyError
     end.
Proof.
  destruct args as [|name rest]; run_handler; [split; reflexivity|].
  destruct (Dict.get book name) as [r|];
    [destruct (Record.birthday r)|]; split; try reflexivity; discriminate.
Qed.

Lemma show_all_contacts_outcome (args : list str) (book : AddressBook.t) :
  snd (show_all_contacts args book) = book.
Proof. run_handler. destruct book; reflexivity. Qed.

Lemma birthdays_outcome (libc : Date.year_style) (today : Date.t)
    (args : list str) (book : AddressBook.t) :
  snd (birthdays libc today args book) = book.
Proof.
  run_handler.
  destruct (AddressBook.get_upcoming_birthdays libc today book 7) as [[|? ?]|];
    reflexivity.
Qed.

Lemma edit_phone_loop_invalid_new (idx : nat) (rest : list Phone.t)
    (old new : str) (self : Record.t) :
  (exists ph, In ph rest /\ value ph = old) ->
  Phone.validate_phone new = false ->
  Record.edit_phone_loop idx rest old new self = (Raise ValueError, self).
Proof.
  intros (ph & HI & HV) V. revert idx.
  induction rest as [|q rest IH]; intros idx; [destruct HI|]. simpl.
  destruct (str_eqb (value q) old) eqn:E.
  - unfold State.bind, State.lift, Phone.init. rewrite V. reflexivity.
  - destruct HI as [->|HI].
    + rewrite HV, str_eqb_refl in E. discriminate.
    + apply IH, HI.
Qed.

Lemma input_error_of_outcome (func : handler) (args : list str)
    (book : AddressBook.t) :
  snd (input_error func args book) = snd (func args book)
  /\ fst (input_error func args book)
     = match fst (func args book) with
       | Ok s => s
       | Raise KeyError => MSG_KEY
       | Raise ValueError => MSG_VALUE
       | Raise IndexError => MSG_INDEX
       end.
Proof.
  unfold input_error. destruct (func args book) as [[s|[]] book'];
    split; reflexivity.
Qed.

Lemma success_texts_are_no_failure_messages (x : str) :
  ~ Spec.failure_message (lit "Contact " ++ x)
  /\ ~ Spec.failure_message (lit "Phone number for " ++ x)
  /\ ~ Spec.failure_message (lit "Birthday for " ++ x).
Proof.
  unfold Spec.failure_message, MSG_KEY, MSG_VALUE, MSG_INDEX.
  repeat split; cbn; intros [H|[H|H]]; discriminate.
Qed.

(** The upcoming-birthday loop raises nothing but [ValueError]. *)
Lemma visit_all_raises_ValueError (libc : Date.year_style) (today : Date.t)
    (days : Z) (records : list Record.t) (acc : list AddressBook.entry)
    (e : exn) :
  AddressBook.visit_all libc today days acc records = Raise e ->
  e = ValueError.
Proof.
  revert acc. induction records as [|r records IH]; intros acc; simpl;
    [discriminate|].
  destruct (AddressBook.visit libc today days acc r) as [acc'|e'] eqn:V;
    cbn [Py.bind].
  - apply IH.
  - intros [= <-]. apply (visit_raises_ValueError _ _ _ _ _ _ V).
Qed.

(** What each handler returns or raises, by the shape of its arguments
    and the presence of the name. *)
Lemma handler_result (libc : Date.year_style) (today : Date.t)
    (cmd : Spec.command) (args : list str) (book : AddressBook.t) :
  match cmd with
  | Spec.Add | Spec.Birthdays =>
      (exists s, fst (Spec.handler_of libc today cmd args book) = Ok s)
      \/ fst (Spec.handler_of libc today cmd args book) = Raise ValueError
  | Spec.All =>
      exists s, fst (Spec.handler_of libc today cmd args book) = Ok s
  | Spec.Change =>
      match args with
      | name :: _ :: _ :: _ =>
          match Dict.get book name with
          | Some _ =>
              (exists s, fst (Spec.handler_of libc today cmd args book) = Ok s)
              \/ fst (Spec.handler_of libc today cmd args book)
                 = Raise ValueError
          | None =>
              fst (Spec.handler_of libc today cmd args book) = Raise KeyError
          end
      | _ => fst (Spec.handler_of libc today cmd args book) = Raise ValueError
      end
  | Spec.AddBirthday =>
      match args with
      | name :: _ :: _ =>
          match Dict.get book name with
          | Some _ =>
              (exists s, fst (Spec.handler_of libc today cmd args book) = Ok s)
              \/ fst (Spec.handler_of libc today cmd args book)
                 = Raise ValueError
          | None =>
              fst (Spec.handler_of libc today cmd args book) = Raise KeyError
          end
      | _ => fst (Spec.handler_of libc today cmd args book) = Raise ValueError
      end
  | Spec.ShowPhone | Spec.ShowBirthday =>
      match args with
      | name :: _ =>
          match Dict.get book name with
          | Some _ =>
              exists s, fst (Spec.handler_of libc today cmd args book) = Ok s
          | None =>
              fst (Spec.handler_of libc today cmd args book) = Raise KeyError
          end
      | [] => fst (Spec.handler_of libc today cmd args book) = Raise IndexError
      end
  end.
Proof.
  destruct cmd; cbn [Spec.handler_of].
  - pose proof (add_contact_outcome args book) as O.
    destruct args as [|name [|phone rest]]; try (right; rewrite O; reflexivity).
    destruct (Phone.validate_phone phone); [left; eauto|].
    right. rewrite O. reflexivity.
  - pose proof (change_contact_outcome args book) as O.
    destruct args as [|name [|old [|new rest]]]; try (rewrite O; reflexivity).
    destruct (Dict.get book name); [|rewrite O; reflexivity].
    destruct O as [O|[_ O]]; [left; eauto | right; rewrite O; reflexivity].
  - destruct args as [|name rest]; run_handler; [reflexivity|].
    destruct (Dict.get book name); [eexists; reflexivity | reflexivity].
  - run_handler. destruct book; eexists; reflexivity.
  - pose proof (add_birthday_handler_outcome args book) as O.
    destruct args as [|name [|text rest]]; try (rewrite O; reflexivity).
    destruct (Dict.get book name); [|rewrite O; reflexivity].
    destruct (Birthday.init text); [left; eauto | right; rewrite O; reflexivity].
  - destruct args as [|name rest]; run_handler; [reflexivity|].
    destruct (Dict.get book name) as [r|]; [|reflexivity].
    destruct (Record.birthday r); eexists; reflexivity.
  - run_handler.
    destruct (AddressBook.get_upcoming_birthdays libc today book 7)
      as [[|x l]|e] eqn:Q; cbn [fst];
      [left; eexists; reflexivity .. |].
    right. unfold AddressBook.get_upcoming_birthdays in Q.
    apply visit_all_raises_ValueError in Q. subst e. reflexivity.
Qed.

(** The loop hands each command word to its wrapped handler and prints
    what it returns. *)
Lemma dispatch_to_handler (libc : Date.year_style) (today : Date.t)
    (cmd : Spec.command) (args : list str) (book : AddressBook.t) :
  dispatch libc today (Inv.command_word cmd) args book
  = printed (input_error (Spec.handler_of libc today cmd) args book).
Proof. destruct cmd; reflexivity. Qed.

(** C7, as the code has it: whatever a handler raises, the wrapped
    handler returns a text chosen by the kind of the exception alone, the
    same for every handler: a [ValueError] gives the text asking for name
    and phone, a [KeyError] the text that the contact does not exist, an
    [IndexError] the text asking for the user name.  The loop hands each
    command word to its wrapped handler, so a handler that raises makes
    the turn print the text of that kind and go on.  The handlers raise
    [ValueError] on too few arguments (fewer than two for add and
    add-birthday, fewer than three for change, none at all included) and
    on a phone or birthday that does not validate; they raise [KeyError]
    exactly when change, phone, add-birthday or show-birthday has its
    arguments and the name is not in the book; they raise [IndexError]
    exactly when phone or show-birthday is given no argument. *)
Theorem input_error_maps_failures :
  (forall (func : handler) args book book',
      (forall s, func args book = (Ok s, book') ->
                 input_error func args book = (s, book'))
      /\ (func args book = (Raise ValueError, book') ->
          input_error func args book
          = (lit "Give me name and phone please.", book'))
      /\ (func args book = (Raise KeyError, book') ->
          input_error func args book
          = (lit "This contact does not exist.", book'))
      /\ (func args book = (Raise IndexError, book') ->
          input_error func args book = (lit "Enter user name.", book')))
  /\ (forall libc today cmd args book,
        dispatch libc today (Inv.command_word cmd) args book
        = printed (input_error (Spec.handler_of libc today cmd) args book)
        /\ forall e book',
             Spec.handler_of libc today cmd args book = (Raise e, book') ->
             dispatch libc today (Inv.command_word cmd) args book
             = Printed (Inv.failure_text e) book')
  /\ (forall args book,
        (length args < 2)%nat ->
        fst (input_error add_contact args book)
        = lit "Give me name and phone please."
        /\ fst (input_error add_birthday args book)
           = lit "Give me name and phone please.")
  /\ (forall args book,
        (length args < 3)%nat ->
        fst (input_error change_contact args book)
        = lit "Give me name and phone please.")
  /\ (forall name phone rest book,
        Phone.validate_phone phone = false ->
        fst (input_error add_contact (name :: phone :: rest) book)
        = lit "Give me name and phone please.")
  /\ (forall name old new rest book r ph,
        Dict.get book name = Some r ->
        In ph (Record.phones r) -> value ph = old ->
        Phone.validate_phone new = false ->
        fst (input_error change_contact (name :: old :: new :: rest) book)
        = lit "Give me name and phone please.")
  /\ (forall name birthday rest book r,
        Dict.get book name = Some r ->
        Birthday.init birthday = Raise ValueError ->
        fst (input_error add_birthday (name :: birthday :: rest) book)
        = lit "Give me name and phone please.")
  /\ (forall libc name x y rest book,
        Dict.get book name = None ->
        fst (input_error change_contact (name :: x :: y :: rest) book)
        = lit "This contact does not exist."
        /\ fst (input_error show_phone (name :: rest) book)
           = lit "This contact does not exist."
        /\ fst (input_error add_birthday (name :: x :: rest) book)
           = lit "This contact does not exist."
        /\ fst (input_error (show_birthday libc) (name :: rest) book)
           = lit "This contact does not exist.")
  /\ (forall libc today cmd args book,
        fst (Spec.handler_of libc today cmd args book) = Raise KeyError
        <-> exists name rest,
              args = name :: rest /\ Dict.get book name = None
              /\ (cmd = Spec.Change /\ (2 <= length rest)%nat
                  \/ cmd = Spec.ShowPhone
                  \/ cmd = Spec.AddBirthday /\ (1 <= length rest)%nat
                  \/ cmd = Spec.ShowBirthday))
  /\ (forall libc today cmd args book,
        fst (Spec.handler_of libc today cmd args book) = Raise IndexError
        <-> (cmd = Spec.ShowPhone \/ cmd = Spec.ShowBirthday) /\ args = [])
  /\ (forall libc book,
        fst (input_error add_contact [] book)
        = lit "Give me name and phone please."
        /\ fst (input_error change_contact [] book)
           = lit "Give me name and phone please."
        /\ fst (input_error add_birthday [] book)
           = lit "Give me name and phone please."
        /\ fst (input_error show_phone [] book) = lit "Enter user name."
        /\ fst (input_error (show_birthday libc) [] book)
           = lit "Enter user name.").
Proof.
  split.
  { intros func args book book'. unfold input_error.
    repeat split; intros;
      match goal with H : _ = _ |- _ => rewrite H; reflexivity end. }
  split.
  { intros libc today cmd args book.
    split; [apply dispatch_to_handler|]. intros e book' H.
    rewrite dispatch_to_handler. unfold printed, input_error. rewrite H.
    destruct e; reflexivity. }
  split.
  { intros args book L.
    destruct args as [|a [|b rest]]; [split; reflexivity.. | simpl in L; lia]. }
  split.
  { intros args book L.
    destruct args as [|a [|b [|c rest]]]; [reflexivity.. | simpl in L; lia]. }
  split.
  { intros name phone rest book V.
    pose proof (add_contact_outcome (name :: phone :: rest) book) as O.
    cbv beta iota in O. rewrite V in O.
    unfold input_error. rewrite O. reflexivity. }
  split.
  { intros name old new rest book r ph G HI HV V.
    pose proof (change_contact_outcome (name :: old :: new :: rest) book) as O.
    cbv beta iota in O. rewrite G in O.
    assert (E : Record.edit_phone old new r = (Raise ValueError, r)).
    { apply (edit_phone_loop_invalid_new 0 (Record.phones r) old new r);
        [exists ph; auto | exact V]. }
    destruct O as [O|[_ O]].
    - exfalso. revert O. unfold change_contact, State.bind, State.lift,
        State.get, State.raise, State.ret, PyList.getitem, on_record.
      cbn [length Nat.ltb Nat.leb nth_error]. rewrite G, G, E. discriminate.
    - unfold input_error. rewrite O. reflexivity. }
  split.
  { intros name birthday rest book r G B.
    pose proof (add_birthday_handler_outcome (name :: birthday :: rest) book) as O.
    cbv beta iota in O. rewrite G, B in O.
    unfold input_error. rewrite O. reflexivity. }
  split.
  { intros libc name x y rest book G. repeat split.
    - pose proof (change_contact_outcome (name :: x :: y :: rest) book) as O.
      cbv beta iota in O. rewrite G in O.
      unfold input_error. rewrite O. reflexivity.
    - destruct (show_phone_outcome (name :: rest) book) as [_ O].
      rewrite (proj2 (input_error_of_outcome _ _ _)), (O G). reflexivity.
    - pose proof (add_birthday_handler_outcome (name :: x :: rest) book) as O.
      cbv beta iota in O. rewrite G in O.
      unfold input_error. rewrite O. reflexivity.
    - destruct (show_birthday_outcome libc (name :: rest) book) as [_ O].
      rewrite (proj2 (input_error_of_outcome _ _ _)), (O G). reflexivity. }
  split.
  { intros libc today cmd args book.
    pose proof (handler_result libc today cmd args book) as R. split.
    - intros K. rewrite K in R.
      destruct cmd;
        repeat match goal with
          | H : _ \/ _ |- _ => destruct H
          | H : exists _, _ |- _ => destruct H
          | H : Raise _ = Ok _ |- _ => discriminate H
          | H : Raise KeyError = Raise _ |- _ => discriminate H
          end.
      + destruct args as [|name [|old [|new rest]]]; try discriminate R.
        destruct (Dict.get book name) eqn:G.
        * destruct R as [[s R]|R]; discriminate R.
        * exists name, (old :: new :: rest). repeat split; auto.
          left. split; [reflexivity | simpl; lia].
      + destruct args as [|name rest]; [discriminate R|].
        destruct (Dict.get book name) eqn:G; [destruct R; discriminate|].
        exists name, rest. auto.
      + destruct args as [|name [|text rest]]; try discriminate R.
        destruct (Dict.get book name) eqn:G.
        * destruct R as [[s R]|R]; discriminate R.
        * exists name, (text :: rest). repeat split; auto.
          right. right. left. split; [reflexivity | simpl; lia].
      + destruct args as [|name rest]; [discriminate R|].
        destruct (Dict.get book name) eqn:G; [destruct R; discriminate|].
        exists name, rest. split; [reflexivity|]. split; [exact G|].
        right. right. right. reflexivity.
    - intros (name & rest & -> & G & C).
      destruct C as [ [-> L] | [ -> | [ [-> L] | -> ] ] ]; cbv beta iota in R.
      + destruct rest as [|old [|new rest]]; try (simpl in L; lia).
        rewrite G in R. exact R.
      + rewrite G in R. exact R.
      + destruct rest as [|text rest]; [simpl in L; lia|].
        rewrite G in R. exact R.
      + rewrite G in R. exact R. }
  split.
  { intros libc today cmd args book.
    pose proof (handler_result libc today cmd args book) as R. split.
    - intros K. rewrite K in R.
      destruct cmd;
        repeat match goal with
          | H : _ \/ _ |- _ => destruct H
          | H : exists _, _ |- _ => destruct H
          | H : Raise _ = Ok _ |- _ => discriminate H
          | H : Raise IndexError = Raise _ |- _ => discriminate H
          end.
      + destruct args as [|name [|old [|new rest]]]; try discriminate R.
        destruct (Dict.get book name);
          [destruct R as [[s R]|R]; discriminate R | discriminate R].
      + destruct args as [|name rest]; [auto|].
        destruct (Dict.get book name); [destruct R|]; discriminate.
      + destruct args as [|name [|text rest]]; try discriminate R.
        destruct (Dict.get book name);
          [destruct R as [[s R]|R]; discriminate R | discriminate R].
      + destruct args as [|name rest]; [auto|].
        destruct (Dict.get book name); [destruct R|]; discriminate.
    - intros [[-> | ->] ->]; exact R. }
  intros libc book. repeat split; reflexivity.
Qed.

Lemma input_error_maps_failures_examples :
  fst (input_error add_contact [lit "Bob"] [])
  = lit "Give me name and phone please."
  /\ fst (input_error add_contact [lit "Bob"; lit "12345"] [])
     = lit "Give me name and phone please."
  /\ fst (input_error show_phone [lit "Nobody"] [])
     = lit "This contact does not exist."
  /\ fst (Spec.handler_of Date.FourDigitYear (Date.mk 2024 1 1)
            Spec.ShowPhone [lit "Nobody"] [])
     = Raise KeyError
  /\ dispatch Date.FourDigitYear (Date.mk 2024 1 1) (lit "phone") [] []
     = Printed (lit "Enter user name.") [].
Proof.
  destruct input_error_maps_failures
    as (_ & Turn & Few2 & _ & BadPhone & _ & _ & Text & Absent & _ & _).
  split; [apply (Few2 [lit "Bob"] []); simpl; lia|].
  split; [apply (BadPhone (lit "Bob") (lit "12345") [] []); reflexivity|].
  split.
  { apply (Text Date.FourDigitYear (lit "Nobody") [] [] [] []). reflexivity. }
  split.
  - apply (Absent Date.FourDigitYear (Date.mk 2024 1 1) Spec.ShowPhone
             [lit "Nobody"] []).
    exists (lit "Nobody"), []. auto.
  - apply (proj2 (Turn Date.FourDigitYear (Date.mk 2024 1 1) Spec.ShowPhone
                      [] []) IndexError []).
    reflexivity.
Defined.

(** C7 as stated fails: the add command given no argument at all, so no
    name argument, answers with the text that asks for name and phone,
    not with the one that asks for the user name. *)
Lemma add_contact_without_arguments :
  input_error add_contact [] []
  = (lit "Give me name and phone please.", [])
  /\ fst (input_error add_contact [] []) <> lit "Enter user name.".
Proof. split; [reflexivity | vm_compute; discriminate]. Qed.

(** C9: when the text a wrapped handler returns is one of the three
    failure texts, the book after the call is the book before it. *)
Theorem failure_leaves_book_unchanged (libc : Date.year_style)
    (today : Date.t) (cmd : Spec.command) (args : list str)
    (book : AddressBook.t) :
  Spec.failure_message
    (fst (input_error (Spec.handler_of libc today cmd) args book)) ->
  snd (input_error (Spec.handler_of libc today cmd) args book) = book.
Proof.
  destruct (input_error_of_outcome (Spec.handler_of libc today cmd) args book)
    as [S F].
  rewrite S, F. clear S F.
  destruct cmd; cbn [Spec.handler_of].
  - pose proof (add_contact_outcome args book) as O.
    destruct args as [|name [|phone rest]]; try (rewrite O; reflexivity).
    destruct (Phone.validate_phone phone); [|rewrite O; reflexivity].
    rewrite O. intros H.
    destruct (proj1 (success_texts_are_no_failure_messages _) H).
  - pose proof (change_contact_outcome args book) as O.
    destruct args as [|name [|old [|new rest]]]; try (rewrite O; reflexivity).
    destruct (Dict.get book name); [|rewrite O; reflexivity].
    destruct O as [O|[_ O]]; [|rewrite O; reflexivity].
    rewrite O. intros H.
    destruct (proj1 (proj2 (success_texts_are_no_failure_messages _)) H).
  - intros _. apply show_phone_outcome.
  - intros _. apply show_all_contacts_outcome.
  - pose proof (add_birthday_handler_outcome args book) as O.
    destruct args as [|name [|birthday rest]]; try (rewrite O; reflexivity).
    destruct (Dict.get book name); [|rewrite O; reflexivity].
    destruct (Birthday.init birthday); [|rewrite O; reflexivity].
    rewrite O. intros H.
    destruct (proj2 (proj2 (success_texts_are_no_failure_messages _)) H).
  - intros _. apply show_birthday_outcome.
  - intros _. apply birthdays_outcome.
Qed.

Lemma failure_leaves_book_unchanged_bad_phone :
  snd (input_error add_contact [lit "Bob"; lit "12345"]
         [(lit "Bob", Record.mk (mkField (lit "Bob"))
                        [mkField (lit "1234567890")] None)])
  = [(lit "Bob", Record.mk (mkField (lit "Bob"))
                   [mkField (lit "1234567890")] None)].
Proof.
  apply (failure_leaves_book_unchanged Date.FourDigitYear (Date.mk 2024 1 1)
           Spec.Add [lit "Bob"; lit "12345"]
           [(lit "Bob", Record.mk (mkField (lit "Bob"))
                          [mkField (lit "1234567890")] None)]).
  left. reflexivity.
Defined.

(** * Further properties of the handlers, the query and the session *)

(** ** More on dictionaries *)

Lemma Dict_setitem_absent {V} (d : Dict.t V) (k : str) (v : V) :
  Dict.get d k = None -> Dict.setitem d k v = d ++ [(k, v)].
Proof.
  induction d as [|[k' v'] d IH]; simpl; [reflexivity|].
  destruct (str_eqb k' k); [discriminate|].
  intros H. rewrite IH by exact H. reflexivity.
Qed.

Lemma Dict_get_None_keys {V} (d : Dict.t V) (k : str) :
  Dict.get d k = None <-> ~ In k (Dict.keys d).
Proof.
  rewrite Dict_get_In_keys. destruct (Dict.get d k) as [v|]; split.
  - discriminate.
  - intros H. exfalso. apply H. eauto.
  - intros _ [v H]. discriminate.
  - reflexivity.
Qed.

Lemma Dict_get_middle {V} (before after : Dict.t V) (k : str) (v : V) :
  ~ In k (Dict.keys before) ->
  Dict.get (before ++ (k, v) :: after) k = Some v.
Proof.
  induction before as [|[k' v'] before IH]; simpl; intros H.
  - rewrite str_eqb_refl. reflexivity.
  - destruct (str_eqb k' k) eqn:E.
    + apply str_eqb_eq in E. exfalso. apply H. left. exact E.
    + apply IH. intros HI. apply H. right. exact HI.
Qed.

Lemma Dict_setitem_middle {V} (before after : Dict.t V) (k : str) (v w : V) :
  ~ In k (Dict.keys before) ->
  Dict.setitem (before ++ (k, v) :: after) k w = before ++ (k, w) :: after.
Proof.
  induction before as [|[k' v'] before IH]; simpl; intros H.
  - rewrite str_eqb_refl. reflexivity.
  - destruct (str_eqb k' k) eqn:E.
    + apply str_eqb_eq in E. exfalso. apply H. left. exact E.
    + rewrite IH; [reflexivity|]. intros HI. apply H. right. exact HI.
Qed.

Lemma Dict_get_split {V} (d : Dict.t V) (k : str) (v : V) :
  Dict.get d k = Some v ->
  exists before after,
    d = before ++ (k, v) :: after /\ ~ In k (Dict.keys before).
Proof.
  induction d as [|[k' v'] d IH]; simpl; [discriminate|].
  destruct (str_eqb k' k) eqn:E.
  - apply str_eqb_eq in E. subst k'. intros [= ->].
    exists [], d. split; [reflexivity | intros []].
  - intros H. destruct (IH H) as (b & a & -> & N).
    exists ((k', v') :: b), a. split; [reflexivity|].
    apply str_eqb_neq in E. intros HI. simpl in HI.
    destruct HI as [HI|HI]; [exact (E HI) | exact (N HI)].
Qed.

Lemma Dict_keys_setitem {V} (d : Dict.t V) (k : str) (v : V) :
  Dict.keys (Dict.setitem d k v)
  = match Dict.get d k with
    | Some _ => Dict.keys d
    | None => Dict.keys d ++ [k]
    end.
Proof.
  unfold Dict.keys.
  induction d as [|[k' v'] d IH]; simpl; [reflexivity|].
  destruct (str_eqb k' k) eqn:E; simpl; [reflexivity|].
  rewrite IH. destruct (Dict.get d k); reflexivity.
Qed.

(** [add_record] and lookup: the record is found under its name, every
    other name finds what it found before, and a name that is new comes
    last in the order of the book. *)
Theorem add_record_then_get (book : AddressBook.t) (record : Record.t) :
  fst (AddressBook.add_record record book) = Ok tt
  /\ Dict.get (snd (AddressBook.add_record record book))
       (value (Record.name record)) = Some record
  /\ (forall k, k <> value (Record.name record) ->
        Dict.get (snd (AddressBook.add_record record book)) k
        = Dict.get book k)
  /\ (Dict.get book (value (Record.name record)) = None ->
      AddressBook.iter (snd (AddressBook.add_record record book))
      = AddressBook.iter book ++ [record]).
Proof.
  assert (R : AddressBook.add_record record book
              = (Ok tt, Dict.setitem book (value (Record.name record)) record))
    by reflexivity.
  rewrite R. cbn [fst snd]. split; [reflexivity|].
  split; [apply Dict_get_setitem_same|].
  split; [intros k N; apply Dict_get_setitem_other, N|].
  intros A. rewrite (Dict_setitem_absent _ _ _ A).
  unfold AddressBook.iter, Dict.values. rewrite map_app. reflexivity.
Qed.

(** ** What the handlers do to the book *)

Lemma add_contact_effect (name phone : str) (rest : list str)
    (book : AddressBook.t) :
  Phone.validate_phone phone = true ->
  add_contact (name :: phone :: rest) book
  = (Ok (lit "Contact " ++ name ++ lit " added with phone number "
         ++ phone ++ lit "."),
     match Dict.get book name with
     | Some r =>
         Dict.setitem book name
           (Record.with_phones r (Record.phones r ++ [mkField phone]))
     | None => book ++ [(name, Record.mk (mkField name) [mkField phone] None)]
     end).
Proof.
  intros V. run_handler.
  destruct (Dict.contains book name) eqn:C.
  - apply Dict_contains_get in C. destruct C as [r G]. rewrite G.
    rewrite add_phone_outcome, V. reflexivity.
  - unfold Dict.contains in C.
    destruct (Dict.get book name) eqn:G; [discriminate|].
    rewrite add_phone_outcome, V. cbn [Record.init Record.name value].
    rewrite (Dict_setitem_absent _ _ _ G). reflexivity.
Qed.

Lemma edit_phone_cases (old new : str) (self : Record.t) :
  ((forall q, In q (Record.phones self) -> value q <> old)
   /\ Record.edit_phone old new self = (Ok tt, self))
  \/ exists before ph after,
       Record.phones self = before ++ ph :: after
       /\ value ph = old
       /\ (forall q, In q before -> value q <> old)
       /\ Record.edit_phone old new self
          = match Phone.init new with
            | Ok p =>
                (Ok tt, Record.with_phones self (before ++ p :: after))
            | Raise e => (Raise e, self)
            end.
Proof.
  assert (S : forall l : list Phone.t,
             (forall q, In q l -> value q <> old)
             \/ exists before ph after,
                  l = before ++ ph :: after /\ value ph = old
                  /\ forall q, In q before -> value q <> old).
  { induction l as [|p l IH]; [left; intros q []|].
    destruct (str_eqb (value p) old) eqn:E.
    - apply str_eqb_eq in E. right. exists [], p, l.
      repeat split; auto; intros q [].
    - apply str_eqb_neq in E. destruct IH as [IH|(b & ph & a & -> & Hv & Hn)].
      + left. intros q [<-|Hq]; auto.
      + right. exists (p :: b), ph, a. repeat split; auto.
        intros q [<-|Hq]; auto. }
  destruct (S (Record.phones self)) as [N|(b & ph & a & Hp & Hv & Hn)].
  - left. split; [exact N|]. apply (edit_phone_loop_miss 0 _ old new self N).
  - right. exists b, ph, a. repeat split; auto.
    assert (L : Record.edit_phone old new self
                = Record.edit_phone_loop (length (@nil Phone.t))
                    (Record.phones self) old new self) by reflexivity.
    rewrite L, Hp.
    apply (edit_phone_loop_hit [] b a ph old new self Hp Hn Hv).
Qed.

Lemma change_contact_effect (name old new : str) (rest : list str)
    (book : AddressBook.t) (r : Record.t) :
  Dict.get book name = Some r ->
  change_contact (name :: old :: new :: rest) book
  = match Record.edit_phone old new r with
    | (Ok _, r') =>
        (Ok (lit "Phone number for " ++ name ++ lit " updated to "
             ++ new ++ lit "."),
         Dict.setitem book name r')
    | (Raise e, r') => (Raise e, Dict.setitem book name r')
    end.
Proof.
  intros G. run_handler. rewrite G, G.
  destruct (Record.edit_phone old new r) as [[[]|e] r']; reflexivity.
Qed.

Lemma add_birthday_effect (name text : str) (rest : list str)
    (book : AddressBook.t) (r : Record.t) (d : Date.t) :
  Dict.get book name = Some r ->
  Spec.accepted_text text d ->
  add_birthday (name :: text :: rest) book
  = (Ok (lit "Birthday for " ++ name ++ lit " added: " ++ text),
     Dict.setitem book name (Record.with_birthday r (Some (mkField d)))).
Proof.
  intros G A. run_handler. rewrite G, G.
  unfold Record.add_birthday, State.bind, State.lift, State.get, State.put.
  rewrite (proj2 (Birthday_init_Ok text d) A). reflexivity.
Qed.

Lemma Dict_setitem_setitem {V} (d : Dict.t V) (k : str) (v w : V) :
  Dict.setitem (Dict.setitem d k v) k w = Dict.setitem d k w.
Proof.
  induction d as [|[k' v'] d IH]; simpl.
  - rewrite str_eqb_refl. reflexivity.
  - destruct (str_eqb k' k) eqn:E; simpl; rewrite E; [reflexivity|].
    rewrite IH. reflexivity.
Qed.

Lemma input_error_Ok (func : handler) (args : list str)
    (book book' : AddressBook.t) (s : str) :
  func args book = (Ok s, book') -> input_error func args book = (s, book').
Proof. intros H. unfold input_error. rewrite H. reflexivity. Qed.

(** The add command with a name the book does not have: a record of
    that name with the one phone and no birthday is placed after the
    records already there. *)
Theorem add_contact_new_name (name phone : str) (rest : list str)
    (book : AddressBook.t) :
  Dict.get book name = None ->
  Phone.validate_phone phone = true ->
  input_error add_contact (name :: phone :: rest) book
  = (lit "Contact " ++ name ++ lit " added with phone number " ++ phone
     ++ lit ".",
     book ++ [(name, Record.mk (mkField name) [mkField phone] None)]).
Proof.
  intros G V. apply input_error_Ok.
  rewrite (add_contact_effect name phone rest book V), G. reflexivity.
Qed.

Lemma add_contact_new_name_example :
  input_error add_contact [lit "Bob"; lit "1234567890"]
    [(lit "Ann", Record.init (lit "Ann"))]
  = (lit "Contact Bob added with phone number 1234567890.",
     [(lit "Ann", Record.init (lit "Ann"));
      (lit "Bob", Record.mk (mkField (lit "Bob"))
                    [mkField (lit "1234567890")] None)]).
Proof.
  apply (add_contact_new_name (lit "Bob") (lit "1234567890") []
           [(lit "Ann", Record.init (lit "Ann"))]); reflexivity.
Defined.

(** The add command with a name the book has: the phone is put after
    the phones of that record, also when the record has it already; the
    record keeps its place, its name and its birthday, and the other
    records are as before. *)
Theorem add_contact_existing_name (name phone : str) (rest : list str)
    (before after : AddressBook.t) (r : Record.t) :
  ~ In name (Dict.keys before) ->
  Phone.validate_phone phone = true ->
  input_error add_contact (name :: phone :: rest)
    (before ++ (name, r) :: after)
  = (lit "Contact " ++ name ++ lit " added with phone number " ++ phone
     ++ lit ".",
     before
     ++ (name, Record.mk (Record.name r)
                 (Record.phones r ++ [mkField phone]) (Record.birthday r))
     :: after).
Proof.
  intros N V. apply input_error_Ok.
  rewrite (add_contact_effect name phone rest _ V).
  rewrite (Dict_get_middle before after name r N).
  rewrite (Dict_setitem_middle before after name r _ N). reflexivity.
Qed.

Lemma add_contact_existing_name_example :
  input_error add_contact [lit "Bob"; lit "1234567890"]
    ([(lit "Ann", Record.init (lit "Ann"))]
     ++ (lit "Bob", Record.mk (mkField (lit "Bob"))
                      [mkField (lit "1234567890")]
                      (Some (mkField (Date.mk 1990 5 12))))
     :: [])
  = (lit "Contact Bob added with phone number 1234567890.",
     [(lit "Ann", Record.init (lit "Ann"))]
     ++ (lit "Bob", Record.mk (mkField (lit "Bob"))
                      ([mkField (lit "1234567890")]
                       ++ [mkField (lit "1234567890")])
                      (Some (mkField (Date.mk 1990 5 12))))
     :: []).
Proof.
  apply (add_contact_existing_name (lit "Bob") (lit "1234567890") []
           [(lit "Ann", Record.init (lit "Ann"))] []
           (Record.mk (mkField (lit "Bob")) [mkField (lit "1234567890")]
              (Some (mkField (Date.mk 1990 5 12))))).
  - simpl. intros [H|[]]. discriminate H.
  - reflexivity.
Defined.

(** After a successful add command, the phone command for the same name
    lists the phones the contact had, then the new one. *)
Theorem add_contact_then_show_phone (name phone : str)
    (book : AddressBook.t) :
  Phone.validate_phone phone = true ->
  fst (input_error show_phone [name]
         (snd (input_error add_contact [name; phone] book)))
  = name ++ lit "'s phone numbers are: "
    ++ join (lit ", ")
         (map value match Dict.get book name with
                    | Some r => Record.phones r
                    | None => []
                    end ++ [phone])
    ++ lit ".".
Proof.
  intros V.
  rewrite (input_error_Ok _ _ _ _ _ (add_contact_effect name phone [] book V)).
  cbn [snd].
  assert (S : forall b r,
             Dict.get b name = Some r ->
             fst (input_error show_phone [name] b)
             = name ++ lit "'s phone numbers are: "
               ++ join (lit ", ") (map value (Record.phones r)) ++ lit ".").
  { intros b r G. unfold input_error, show_phone, State.bind, State.get,
      State.ret. rewrite G. cbn [fst].
    rewrite map_ext with (g := value) by reflexivity. reflexivity. }
  destruct (Dict.get book name) as [r|] eqn:G.
  - rewrite (S _ _ (Dict_get_setitem_same book name _)).
    cbn [Record.with_phones Record.phones]. rewrite map_app. reflexivity.
  - rewrite (S _ (Record.mk (mkField name) [mkField phone] None)).
    + reflexivity.
    + rewrite <- (Dict_setitem_absent book name _ G).
      apply Dict_get_setitem_same.
Qed.

Lemma add_contact_then_show_phone_example :
  fst (input_error show_phone [lit "Bob"]
         (snd (input_error add_contact [lit "Bob"; lit "2222222222"]
                 [(lit "Bob", Record.mk (mkField (lit "Bob"))
                                [mkField (lit "1111111111")] None)])))
  = lit "Bob's phone numbers are: 1111111111, 2222222222.".
Proof.
  apply (add_contact_then_show_phone (lit "Bob") (lit "2222222222")
           [(lit "Bob", Record.mk (mkField (lit "Bob"))
                          [mkField (lit "1111111111")] None)]).
  reflexivity.
Defined.

(** The change command for a contact that does not have the old phone:
    the success text is returned all the same and the book is as before,
    whatever the new phone is, valid or not. *)
Theorem change_contact_unknown_old_phone (name old new : str)
    (rest : list str) (book : AddressBook.t) (r : Record.t) :
  Dict.get book name = Some r ->
  (forall q, In q (Record.phones r) -> value q <> old) ->
  input_error change_contact (name :: old :: new :: rest) book
  = (lit "Phone number for " ++ name ++ lit " updated to " ++ new ++ lit ".",
     book).
Proof.
  intros G N. apply input_error_Ok.
  rewrite (change_contact_effect name old new rest book r G).
  destruct (edit_phone_cases old new r) as [[_ E]|(b & ph & a & Hp & Hv & _)].
  - rewrite E, (Dict_setitem_get_id _ _ _ G). reflexivity.
  - exfalso. apply (N ph); [|exact Hv]. rewrite Hp. apply in_elt.
Qed.

Lemma change_contact_unknown_old_phone_example :
  input_error change_contact [lit "Bob"; lit "0000000000"; lit "oops"]
    [(lit "Bob", Record.mk (mkField (lit "Bob"))
                   [mkField (lit "1111111111")] None)]
  = (lit "Phone number for Bob updated to oops.",
     [(lit "Bob", Record.mk (mkField (lit "Bob"))
                    [mkField (lit "1111111111")] None)]).
Proof.
  apply (change_contact_unknown_old_phone (lit "Bob") (lit "0000000000")
           (lit "oops") []
           [(lit "Bob", Record.mk (mkField (lit "Bob"))
                          [mkField (lit "1111111111")] None)]
           (Record.mk (mkField (lit "Bob")) [mkField (lit "1111111111")] None)).
  - reflexivity.
  - simpl. intros q [<-|[]]. discriminate.
Defined.

(** Changing a phone and changing it back restores the book, provided
    both phones are valid and the new one does not stand before the old
    one among the contact's phones. *)
Theorem change_contact_there_and_back (name old new : str)
    (book : AddressBook.t) (r : Record.t)
    (before after : list Phone.t) (ph : Phone.t) :
  Dict.get book name = Some r ->
  Record.phones r = before ++ ph :: after ->
  value ph = old ->
  (forall q, In q before -> value q <> old /\ value q <> new) ->
  Phone.validate_phone old = true ->
  Phone.validate_phone new = true ->
  snd (input_error change_contact [name; new; old]
         (snd (input_error change_contact [name; old; new] book)))
  = book.
Proof.
  intros G Hp Hv Hn Vo Vn.
  remember (Record.with_phones r (before ++ mkField new :: after)) as r1
    eqn:R1.
  assert (E1 : Record.edit_phone old new r = (Ok tt, r1)).
  { subst r1. assert (L : Record.edit_phone old new r
                = Record.edit_phone_loop (length (@nil Phone.t))
                    (Record.phones r) old new r) by reflexivity.
    rewrite L, Hp.
    rewrite (edit_phone_loop_hit [] before after ph old new r Hp
               (fun q Hq => proj1 (Hn q Hq)) Hv).
    unfold Phone.init. rewrite Vn. reflexivity. }
  assert (E2 : Record.edit_phone new old r1 = (Ok tt, r)).
  { subst r1.
    set (r1 := Record.with_phones r (before ++ mkField new :: after)).
    assert (L : Record.edit_phone new old r1
                = Record.edit_phone_loop (length (@nil Phone.t))
                    (before ++ mkField new :: after) new old r1)
      by reflexivity.
    rewrite L.
    refine (eq_trans
              (edit_phone_loop_hit [] before after (mkField new) new old r1
                 eq_refl (fun q Hq => proj2 (Hn q Hq)) eq_refl) _).
    unfold Phone.init. rewrite Vo. cbn [negb]. f_equal.
    destruct r as [n ps b]. destruct ph as [v]. cbn in *. subst. reflexivity. }
  rewrite (input_error_Ok _ _ _ _ _
             (eq_trans (change_contact_effect name old new [] book r G)
                       ltac:(rewrite E1; reflexivity))).
  cbn [snd].
  rewrite (input_error_Ok _ _ _ _ _
             (eq_trans (change_contact_effect name new old [] _ r1
                          (Dict_get_setitem_same book name r1))
                       ltac:(rewrite E2; reflexivity))).
  cbn [snd]. rewrite Dict_setitem_setitem. apply Dict_setitem_get_id, G.
Qed.

Lemma change_contact_there_and_back_example :
  snd (input_error change_contact
         [lit "Bob"; lit "3333333333"; lit "1111111111"]
         (snd (input_error change_contact
                 [lit "Bob"; lit "1111111111"; lit "3333333333"]
                 [(lit "Bob", Record.mk (mkField (lit "Bob"))
                                [mkField (lit "1111111111");
                                 mkField (lit "2222222222")] None)])))
  = [(lit "Bob", Record.mk (mkField (lit "Bob"))
                   [mkField (lit "1111111111");
                    mkField (lit "2222222222")] None)].
Proof.
  apply (change_contact_there_and_back (lit "Bob") (lit "1111111111")
           (lit "3333333333") _
           (Record.mk (mkField (lit "Bob"))
              [mkField (lit "1111111111"); mkField (lit "2222222222")] None)
           [] [mkField (lit "2222222222")] (mkField (lit "1111111111")));
    try reflexivity.
  intros q [].
Defined.

(** The add-birthday command for a contact of the book: the date read
    from the text becomes the contact's birthday, in place of any it
    had; its phones, its place and the other contacts are as before,
    and the text is repeated as typed. *)
Theorem add_birthday_sets_the_date (name text : str) (rest : list str)
    (before after : AddressBook.t) (r : Record.t) (d : Date.t) :
  ~ In name (Dict.keys before) ->
  Spec.accepted_text text d ->
  input_error add_birthday (name :: text :: rest)
    (before ++ (name, r) :: after)
  = (lit "Birthday for " ++ name ++ lit " added: " ++ text,
     before
     ++ (name, Record.mk (Record.name r) (Record.phones r)
                 (Some (mkField d)))
     :: after).
Proof.
  intros N A. apply input_error_Ok.
  rewrite (add_birthday_effect name text rest _ r d
             (Dict_get_middle before after name r N) A).
  rewrite (Dict_setitem_middle before after name r _ N). reflexivity.
Qed.

Lemma add_birthday_sets_the_date_example :
  input_error add_birthday [lit "Bob"; lit "1990.5.12"]
    ([] ++ (lit "Bob", Record.mk (mkField (lit "Bob"))
                         [mkField (lit "1234567890")]
                         (Some (mkField (Date.mk 2000 1 1))))
     :: [])
  = (lit "Birthday for Bob added: 1990.5.12",
     [] ++ (lit "Bob", Record.mk (mkField (lit "Bob"))
                         [mkField (lit "1234567890")]
                         (Some (mkField (Date.mk 1990 5 12))))
     :: []).
Proof.
  apply (add_birthday_sets_the_date (lit "Bob") (lit "1990.5.12") [] [] []
           (Record.mk (mkField (lit "Bob")) [mkField (lit "1234567890")]
              (Some (mkField (Date.mk 2000 1 1))))
           (Date.mk 1990 5 12)).
  - intros [].
  - apply Birthday_init_Ok. vm_compute. reflexivity.
Defined.

(** After a successful add-birthday command, show-birthday for the same
    name prints the date in the form YYYY.MM.DD of [strftime], which is
    the text that was typed when that was in the exact pattern and the
    year prints in four digits. *)
Theorem add_birthday_then_show_birthday (libc : Date.year_style)
    (name text : str) (book : AddressBook.t) (r : Record.t) (d : Date.t) :
  Dict.get book name = Some r ->
  Spec.accepted_text text d ->
  fst (input_error (show_birthday libc) [name]
         (snd (input_error add_birthday [name; text] book)))
  = name ++ lit "'s birthday is on " ++ Date.strftime_Ymd libc d ++ lit "."
  /\ (Spec.exact_YMD text d ->
      libc = Date.FourDigitYear \/ (1000 <= Date.year d)%Z ->
      fst (input_error (show_birthday libc) [name]
             (snd (input_error add_birthday [name; text] book)))
      = name ++ lit "'s birthday is on " ++ text ++ lit ".").
Proof.
  intros G A.
  rewrite (input_error_Ok _ _ _ _ _ (add_birthday_effect name text [] book r d G A)).
  cbn [snd].
  assert (S : fst (input_error (show_birthday libc) [name]
                     (Dict.setitem book name
                        (Record.with_birthday r (Some (mkField d)))))
              = name ++ lit "'s birthday is on " ++ Date.strftime_Ymd libc d
                ++ lit ".").
  { unfold input_error, show_birthday, State.bind, State.get, State.ret.
    rewrite Dict_get_setitem_same. reflexivity. }
  split; [exact S|].
  intros E L. rewrite S.
  destruct A as (Y & M & D & y & m & dd & _ & _ & _ & _ & _ & R).
  rewrite (strftime_dotted libc d R L), (exact_YMD_dotted text d E R).
  reflexivity.
Qed.

Lemma add_birthday_then_show_birthday_example :
  fst (input_error (show_birthday Date.PlainYear) [lit "Bob"]
         (snd (input_error add_birthday [lit "Bob"; lit "1990.5.12"]
                 [(lit "Bob", Record.init (lit "Bob"))])))
  = lit "Bob's birthday is on 1990.05.12.".
Proof.
  apply (add_birthday_then_show_birthday Date.PlainYear (lit "Bob")
           (lit "1990.5.12") [(lit "Bob", Record.init (lit "Bob"))]
           (Record.init (lit "Bob")) (Date.mk 1990 5 12)).
  - reflexivity.
  - apply Birthday_init_Ok. vm_compute. reflexivity.
Defined.

Lemma quiet_commands (libc : Date.year_style) (today : Date.t)
    (command : str) (args : list str) (book : AddressBook.t) :
  str_eqb command (lit "add") = false ->
  str_eqb command (lit "change") = false ->
  str_eqb command (lit "add-birthday") = false ->
  Inv.book_after (dispatch libc today command args book) = book.
Proof.
  intros N1 N2 N3.
  unfold dispatch, printed. rewrite N1, N2, N3.
  repeat match goal with
         | |- context [if ?b then _ else _] => destruct b
         end; cbn [Inv.book_after]; try reflexivity.
  - rewrite (proj1 (input_error_of_outcome _ _ _)). apply show_phone_outcome.
  - rewrite (proj1 (input_error_of_outcome _ _ _)).
    apply show_all_contacts_outcome.
  - rewrite (proj1 (input_error_of_outcome _ _ _)).
    apply show_birthday_outcome.
  - rewrite (proj1 (input_error_of_outcome _ _ _)). apply birthdays_outcome.
Qed.

(** Only the add, change and add-birthday commands can change the book:
    under every other command word the turn leaves the book it found,
    whatever the arguments and whether or not the handler failed. *)
Theorem other_commands_leave_the_book (libc : Date.year_style)
    (today : Date.t) (command : str) (args : list str)
    (book : AddressBook.t) :
  command <> lit "add" -> command <> lit "change" ->
  command <> lit "add-birthday" ->
  Inv.book_after (dispatch libc today command args book) = book.
Proof.
  intros N1 N2 N3. apply str_eqb_neq in N1, N2, N3.
  apply quiet_commands; assumption.
Qed.

Lemma other_commands_leave_the_book_example :
  Inv.book_after
    (dispatch Date.FourDigitYear (Date.mk 2024 1 1) (lit "phone")
       [lit "Nobody"] [(lit "Bob", Record.init (lit "Bob"))])
  = [(lit "Bob", Record.init (lit "Bob"))].
Proof.
  apply (other_commands_leave_the_book Date.FourDigitYear (Date.mk 2024 1 1)
           (lit "phone") [lit "Nobody"]
           [(lit "Bob", Record.init (lit "Bob"))]);
    vm_compute; discriminate.
Defined.

(** ** What every turn keeps *)

Lemma Forall_setitem {V} (P : str * V -> Prop) (d : Dict.t V) (k : str)
    (v : V) :
  Forall P d -> P (k, v) -> Forall P (Dict.setitem d k v).
Proof.
  intros F H. induction F as [|[k' v'] d Hx F IH]; simpl.
  - constructor; [exact H | constructor].
  - destruct (str_eqb k' k) eqn:E.
    + apply str_eqb_eq in E. subst k'. constructor; assumption.
    + constructor; assumption.
Qed.

Lemma book_ok_setitem (book : AddressBook.t) (k : str) (r : Record.t) :
  Inv.book_ok book -> value (Record.name r) = k -> Inv.record_ok r ->
  Inv.book_ok (Dict.setitem book k r).
Proof.
  intros [ND F] Hn Hr. split.
  - rewrite Dict_keys_setitem. destruct (Dict.get book k) eqn:G; [exact ND|].
    apply Dict_get_None_keys in G.
    apply NoDup_app; [exact ND | repeat constructor; intros [] | ].
    intros x Hx [<-|[]]. exact (G Hx).
  - apply Forall_setitem; [exact F|]. cbn [fst snd]. auto.
Qed.

Lemma book_ok_get (book : AddressBook.t) (k : str) (r : Record.t) :
  Inv.book_ok book -> Dict.get book k = Some r ->
  value (Record.name r) = k /\ Inv.record_ok r.
Proof.
  intros [_ F] G. destruct (Dict_get_split book k r G) as (b & a & -> & _).
  apply Forall_app in F. destruct F as [_ F].
  inversion F as [|? ? H _]; subst. exact H.
Qed.

Lemma edit_phone_keeps (old new : str) (r : Record.t) :
  Record.name (snd (Record.edit_phone old new r)) = Record.name r
  /\ Record.birthday (snd (Record.edit_phone old new r)) = Record.birthday r
  /\ length (Record.phones (snd (Record.edit_phone old new r)))
     = length (Record.phones r)
  /\ (Inv.record_ok r -> Inv.record_ok (snd (Record.edit_phone old new r))).
Proof.
  destruct (edit_phone_cases old new r)
    as [[_ E]|(b & ph & a & Hp & Hv & Hn & E)]; rewrite E.
  - cbn [snd]. auto.
  - unfold Phone.init.
    destruct (Phone.validate_phone new) eqn:V; cbn [negb snd]; [|auto].
    cbn [Record.with_phones Record.name Record.birthday Record.phones].
    split; [reflexivity|]. split; [reflexivity|]. split.
    + rewrite Hp, !length_app. reflexivity.
    + intros [H Hb]. split; [|exact Hb].
      cbn [Record.phones]. rewrite Hp in H.
      apply Forall_app in H. destruct H as [H1 H2].
      inversion H2; subst. apply Forall_app. split; [exact H1|].
      constructor; [exact V | assumption].
Qed.

Lemma dispatch_book_cases (libc : Date.year_style) (today : Date.t)
    (command : str) (args : list str) (book : AddressBook.t) :
  Inv.book_after (dispatch libc today command args book) = book
  \/ (exists name phone,
        Phone.validate_phone phone = true
        /\ Inv.book_after (dispatch libc today command args book)
           = Dict.setitem book name
               match Dict.get book name with
               | Some r =>
                   Record.with_phones r (Record.phones r ++ [mkField phone])
               | None => Record.mk (mkField name) [mkField phone] None
               end)
  \/ (exists name old new r,
        Dict.get book name = Some r
        /\ Inv.book_after (dispatch libc today command args book)
           = Dict.setitem book name (snd (Record.edit_phone old new r)))
  \/ (exists name r d,
        Dict.get book name = Some r /\ Spec.real_date d
        /\ Inv.book_after (dispatch libc today command args book)
           = Dict.setitem book name
               (Record.with_birthday r (Some (mkField d)))).
Proof.
  destruct (list_eq_dec N.eq_dec command (lit "add")) as [->|N1].
  { change (dispatch libc today (lit "add") args book)
      with (printed (input_error add_contact args book)).
    unfold printed. cbn [Inv.book_after].
    rewrite (proj1 (input_error_of_outcome _ _ _)).
    pose proof (add_contact_outcome args book) as O.
    destruct args as [|name [|phone rest]]; try (rewrite O; auto).
    destruct (Phone.validate_phone phone) eqn:V; [|rewrite O; auto].
    right. left. exists name, phone. split; [exact V|].
    rewrite (add_contact_effect name phone rest book V). cbn [snd].
    destruct (Dict.get book name) eqn:G; [reflexivity|].
    symmetry. apply Dict_setitem_absent, G. }
  destruct (list_eq_dec N.eq_dec command (lit "change")) as [->|N2].
  { change (dispatch libc today (lit "change") args book)
      with (printed (input_error change_contact args book)).
    unfold printed. cbn [Inv.book_after].
    rewrite (proj1 (input_error_of_outcome _ _ _)).
    pose proof (change_contact_outcome args book) as O.
    destruct args as [|name [|old [|new rest]]]; try (rewrite O; auto).
    destruct (Dict.get book name) as [r|] eqn:G; [|rewrite O; auto].
    right. right. left. exists name, old, new, r. split; [exact G|].
    rewrite (change_contact_effect name old new rest book r G).
    destruct (Record.edit_phone old new r) as [[[]|e] r']; reflexivity. }
  destruct (list_eq_dec N.eq_dec command (lit "add-birthday")) as [->|N3].
  { change (dispatch libc today (lit "add-birthday") args book)
      with (printed (input_error add_birthday args book)).
    unfold printed. cbn [Inv.book_after].
    rewrite (proj1 (input_error_of_outcome _ _ _)).
    pose proof (add_birthday_handler_outcome args book) as O.
    destruct args as [|name [|text rest]]; try (rewrite O; auto).
    destruct (Dict.get book name) as [r|] eqn:G; [|rewrite O; auto].
    destruct (Birthday.init text) as [[d]|e] eqn:B; [|rewrite O; auto].
    apply Birthday_init_Ok in B.
    right. right. right. exists name, r, d. split; [exact G|].
    split; [destruct B as (? & ? & ? & ? & ? & ? & _ & _ & _ & _ & _ & R);
            exact R|].
    rewrite (add_birthday_effect name text rest book r d G B). reflexivity. }
  left. apply quiet_commands; apply str_eqb_neq; assumption.
Qed.

(** Every turn of the loop keeps the book well formed: no name twice,
    each record under its own name, all phones valid, every birthday a
    real date. *)
Theorem dispatch_keeps_book_ok (libc : Date.year_style) (today : Date.t)
    (command : str) (args : list str) (book : AddressBook.t) :
  Inv.book_ok book ->
  Inv.book_ok (Inv.book_after (dispatch libc today command args book)).
Proof.
  intros OK.
  destruct (dispatch_book_cases libc today command args book)
    as [E|[(name & phone & V & E)|[(name & old & new & r & G & E)
       |(name & r & d & G & R & E)]]]; rewrite E; clear E.
  - exact OK.
  - destruct (Dict.get book name) as [r|] eqn:G.
    + destruct (book_ok_get book name r OK G) as [Hn [Hp Hb]].
      apply book_ok_setitem; [exact OK | exact Hn |].
      split; [|exact Hb]. cbn [Record.with_phones Record.phones].
      apply Forall_app. split; [exact Hp|]. repeat constructor. exact V.
    + apply book_ok_setitem; [exact OK | reflexivity |].
      split; [repeat constructor; exact V | discriminate].
  - destruct (book_ok_get book name r OK G) as [Hn Hr].
    destruct (edit_phone_keeps old new r) as (En & _ & _ & Eo).
    apply book_ok_setitem; [exact OK | rewrite En; exact Hn | exact (Eo Hr)].
  - destruct (book_ok_get book name r OK G) as [Hn [Hp Hb]].
    apply book_ok_setitem; [exact OK | exact Hn |].
    split; [exact Hp|]. cbn [Record.with_birthday Record.birthday].
    intros b [= <-]. exact R.
Qed.

Lemma dispatch_keeps_book_ok_example :
  Inv.book_ok
    (Inv.book_after
       (dispatch Date.FourDigitYear (Date.mk 2024 1 1) (lit "add")
          [lit "Bob"; lit "1234567890"] [])).
Proof.
  apply (dispatch_keeps_book_ok Date.FourDigitYear (Date.mk 2024 1 1)
           (lit "add") [lit "Bob"; lit "1234567890"] []).
  split; constructor.
Defined.

(** ** What no turn takes away *)

Lemma grows_refl (book : AddressBook.t) : Inv.grows book book.
Proof.
  split; [exists []; symmetry; apply app_nil_r|].
  intros k r G. exists r. repeat split; auto.
Qed.


Lemma grows_setitem (book : AddressBook.t) (k : str) (r' : Record.t) :
  (forall r, Dict.get book k = Some r ->
     Record.name r' = Record.name r
     /\ (length (Record.phones r) <= length (Record.phones r'))%nat
     /\ (Record.birthday r <> None -> Record.birthday r' <> None)) ->
  Inv.grows book (Dict.setitem book k r').
Proof.
  intros H. split.
  - rewrite Dict_keys_setitem. destruct (Dict.get book k); eauto.
    exists []. symmetry. apply app_nil_r.
  - intros k0 r G. destruct (list_eq_dec N.eq_dec k0 k) as [->|N].
    + exists r'. rewrite Dict_get_setitem_same.
      destruct (H r G) as (? & ? & ?). auto.
    + exists r. rewrite (Dict_get_setitem_other _ _ _ _ N). auto.
Qed.

(** No turn removes a contact, moves one, renames one, takes a phone
    from one or unsets a birthday: the book after the turn has the
    contacts of the book before it in the same places, new ones only
    after them, each with as many phones as before or more. *)
Theorem dispatch_grows (libc : Date.year_style) (today : Date.t)
    (command : str) (args : list str) (book : AddressBook.t) :
  Inv.grows book (Inv.book_after (dispatch libc today command args book)).
Proof.
  destruct (dispatch_book_cases libc today command args book)
    as [E|[(name & phone & V & E)|[(name & old & new & r & G & E)
       |(name & r & d & G & R & E)]]]; rewrite E; clear E.
  - apply grows_refl.
  - apply grows_setitem. intros r G. rewrite G.
    cbn [Record.with_phones Record.name Record.phones Record.birthday].
    rewrite length_app. repeat split; auto. lia.
  - apply grows_setitem. intros r0 G0. rewrite G in G0. injection G0 as <-.
    destruct (edit_phone_keeps old new r) as (En & Eb & El & _).
    rewrite En, Eb, El. auto.
  - apply grows_setitem. intros r0 G0. rewrite G in G0. injection G0 as <-.
    cbn [Record.with_birthday Record.name Record.phones Record.birthday].
    repeat split; auto. discriminate.
Qed.

Section DayCounts.

Local Open Scope Z_scope.

(** ** Day counts *)

Ltac known_bool t :=
  let v := eval vm_compute in t in
  match v with
  | true => change t with true in *
  | false => change t with false in *
  end.

Ltac month_tables :=
  unfold Date.days_in_month, Date.days_before_month in *;
  repeat match goal with
    | |- context [nth ?n ?l ?d] =>
        let v := eval vm_compute in (nth n l d) in
        change (nth n l d) with v in *
    | H : context [nth ?n ?l ?d] |- _ =>
        let v := eval vm_compute in (nth n l d) in
        change (nth n l d) with v in *
    | |- context [(?a =? ?b)] => known_bool (a =? b)
    | H : context [(?a =? ?b)] |- _ => known_bool (a =? b)
    | |- context [(?a <? ?b)] => known_bool (a <? b)
    | H : context [(?a <? ?b)] |- _ => known_bool (a <? b)
    end;
  cbn [andb] in *.

Ltac each_month m H :=
  let C := fresh "C" in
  assert (C : m = 1 \/ m = 2 \/ m = 3 \/ m = 4 \/ m = 5 \/ m = 6 \/ m = 7
              \/ m = 8 \/ m = 9 \/ m = 10 \/ m = 11 \/ m = 12) by lia;
  clear H; repeat (destruct C as [C|C]); subst m.

Lemma days_before_year_next (y : Z) :
  Date.days_before_year (y + 1)
  = Date.days_before_year y + 365 + (if Date.is_leap y then 1 else 0).
Proof.
  unfold Date.days_before_year, Date.is_leap.
  replace (y + 1 - 1) with y by lia.
  destruct (y mod 4 =? 0) eqn:E4; destruct (y mod 100 =? 0) eqn:E100;
    destruct (y mod 400 =? 0) eqn:E400; cbn [andb orb negb];
    rewrite ?Z.eqb_eq, ?Z.eqb_neq in *;
    Z.to_euclidean_division_equations; lia.
Qed.

Lemma toordinal_day_of_year (d : Date.t) :
  Date.toordinal d = Date.days_before_year (Date.year d) + Inv.day_of_year d.
Proof. unfold Date.toordinal, Date.ymd2ord, Inv.day_of_year. lia. Qed.

Lemma day_of_year_bounds (d : Date.t) :
  Spec.real_date d ->
  1 <= Inv.day_of_year d
       <= 365 + (if Date.is_leap (Date.year d) then 1 else 0).
Proof.
  destruct d as [y m d]. unfold Spec.real_date, Inv.day_of_year.
  cbn [Date.year Date.month Date.day]. intros (_ & Hm & Hd).
  each_month m Hm; month_tables; destruct (Date.is_leap y); lia.
Qed.

Lemma day_of_year_increasing (y m1 d1 m2 d2 : Z) :
  Spec.real_date (Date.mk y m1 d1) -> Spec.real_date (Date.mk y m2 d2) ->
  m1 < m2 \/ (m1 = m2 /\ d1 < d2) ->
  Inv.day_of_year (Date.mk y m1 d1) < Inv.day_of_year (Date.mk y m2 d2).
Proof.
  unfold Spec.real_date, Inv.day_of_year.
  cbn [Date.year Date.month Date.day].
  intros (_ & Hm1 & Hd1) (_ & Hm2 & Hd2) L.
  each_month m1 Hm1; each_month m2 Hm2; month_tables;
    destruct (Date.is_leap y); lia.
Qed.

Lemma day_of_year_next_year (y m d : Z) :
  1 <= m <= 12 ->
  Inv.day_of_year (Date.mk (y + 1) m d) <= Inv.day_of_year (Date.mk y m d) + 1.
Proof.
  unfold Inv.day_of_year. cbn [Date.year Date.month Date.day].
  intros Hm.
  each_month m Hm; month_tables;
    destruct (Date.is_leap y), (Date.is_leap (y + 1)); lia.
Qed.

Lemma ltb_same_year (a b : Date.t) :
  Date.year a = Date.year b ->
  (Date.ltb a b = true
   <-> Date.month a < Date.month b
       \/ (Date.month a = Date.month b /\ Date.day a < Date.day b)).
Proof.
  intros Y. unfold Date.ltb. rewrite Y, Z.ltb_irrefl, Z.eqb_refl.
  cbn [orb andb].
  rewrite orb_true_iff, andb_true_iff, !Z.ltb_lt, Z.eqb_eq. tauto.
Qed.

(** The rolled birthday is today or later, within a year of it, and it
    is today exactly when the birthday has today's day and month. *)
Lemma delta_bounds (today b : Date.t) :
  Spec.real_date today -> Spec.rolls today b ->
  0 <= Spec.delta today b <= 366
  /\ (Spec.delta today b = 0 <-> Inv.same_day b today).
Proof.
  intros RT [R1 R2]. unfold Spec.delta, Spec.rolled in *.
  pose proof (ltb_same_year (Spec.this_year today b) today eq_refl) as L.
  destruct today as [y tm td]. destruct b as [yb m d].
  unfold Spec.this_year, Inv.same_day in *.
  cbn [Date.year Date.month Date.day] in *.
  pose proof (day_of_year_bounds _ RT) as BT.
  pose proof (day_of_year_bounds _ R1) as B1.
  cbn [Date.year] in BT, B1.
  destruct (Date.ltb (Date.mk y m d) (Date.mk y tm td)) eqn:E.
  - pose proof (day_of_year_increasing y m d tm td R1 RT (proj1 L eq_refl)) as I.
    pose proof (day_of_year_bounds _ R2) as B2. cbn [Date.year] in B2.
    assert (Hm : 1 <= m <= 12) by apply R1.
    pose proof (day_of_year_next_year y m d Hm) as N.
    rewrite !toordinal_day_of_year. cbn [Date.year].
    rewrite days_before_year_next.
    destruct (proj1 L eq_refl) as [H|[H1 H2]];
      destruct (Date.is_leap y); (split; [lia | split; lia]).
  - assert (NL : ~ (m < tm \/ m = tm /\ d < td)).
    { intros H. apply L in H. discriminate. }
    rewrite !toordinal_day_of_year. cbn [Date.year].
    destruct (Z.eq_dec m tm) as [->|Nm].
    + destruct (Z.eq_dec d td) as [->|Nd]; [split; [|split]; lia|].
      pose proof (day_of_year_increasing y tm td tm d RT R1
                    ltac:(right; split; lia)) as I.
      destruct (Date.is_leap y); (split; [lia | split; lia]).
    + pose proof (day_of_year_increasing y tm td m d RT R1
                    ltac:(left; lia)) as I.
      destruct (Date.is_leap y); (split; [lia | split; lia]).
Qed.

Lemma flat_map_agree {A B} (f g : A -> list B) (l : list A) :
  (forall a, In a l -> f a = g a) -> flat_map f l = flat_map g l.
Proof.
  induction l as [|a l IH]; intros H; simpl; [reflexivity|].
  rewrite (H a (or_introl eq_refl)), IH; [reflexivity|].
  intros x Hx. apply H. right. exact Hx.
Qed.

(** With a window of 366 days or more the query lists every contact
    that has a birthday, each with the next date the birthday falls on,
    in the order of the book. *)
Theorem get_upcoming_birthdays_whole_year
    (libc : Date.year_style) (today : Date.t) (days : Z)
    (book : AddressBook.t) :
  Spec.real_date today ->
  (forall r b, In r (Dict.values book) -> Record.birthday r = Some b ->
               Spec.rolls today (value b)) ->
  366 <= days ->
  AddressBook.get_upcoming_birthdays libc today book days
  = Ok (flat_map
          (fun r =>
             match Record.birthday r with
             | Some b =>
                 [AddressBook.mkentry (value (Record.name r))
                    (Date.strftime_Ymd libc (Spec.rolled today (value b)))]
             | None => []
             end)
          (Dict.values book)).
Proof.
  intros RT H D.
  rewrite (get_upcoming_birthdays_when_dates_exist libc today days book H).
  f_equal. apply flat_map_agree. intros r Hr.
  destruct (Record.birthday r) as [b|] eqn:B; [|reflexivity].
  destruct (delta_bounds today (value b) RT (H r b Hr B)) as [[L U] _].
  rewrite (proj2 (Z.leb_le _ _) L).
  rewrite (proj2 (Z.leb_le _ _) (Z.le_trans _ _ _ U D)). reflexivity.
Qed.

Lemma get_upcoming_birthdays_whole_year_example :
  AddressBook.get_upcoming_birthdays Date.FourDigitYear (Date.mk 2023 5 10)
    [(lit "Ann", Record.mk (mkField (lit "Ann")) []
                   (Some (mkField (Date.mk 1990 5 9))));
     (lit "Bob", Record.init (lit "Bob"))] 366
  = Ok [AddressBook.mkentry (lit "Ann") (lit "2024.05.09")].
Proof.
  apply (get_upcoming_birthdays_whole_year Date.FourDigitYear
           (Date.mk 2023 5 10) 366
           [(lit "Ann", Record.mk (mkField (lit "Ann")) []
                          (Some (mkField (Date.mk 1990 5 9))));
            (lit "Bob", Record.init (lit "Bob"))]).
  - repeat split; vm_compute; discriminate.
  - intros r b [<-|[<-|[]]]; intros [= <-].
    repeat split; vm_compute; discriminate.
  - lia.
Defined.

(** With a window of 0 days the query lists exactly the contacts whose
    birthday has today's day and month, each with today's date. *)
Theorem get_upcoming_birthdays_today
    (libc : Date.year_style) (today : Date.t) (book : AddressBook.t) :
  Spec.real_date today ->
  (forall r b, In r (Dict.values book) -> Record.birthday r = Some b ->
               Spec.rolls today (value b)) ->
  AddressBook.get_upcoming_birthdays libc today book 0
  = Ok (flat_map
          (fun r =>
             match Record.birthday r with
             | Some b =>
                 if (Date.month (value b) =? Date.month today)
                    && (Date.day (value b) =? Date.day today)
                 then [AddressBook.mkentry (value (Record.name r))
                         (Date.strftime_Ymd libc today)]
                 else []
             | None => []
             end)
          (Dict.values book)).
Proof.
  intros RT H.
  rewrite (get_upcoming_birthdays_when_dates_exist libc today 0 book H).
  f_equal. apply flat_map_agree. intros r Hr.
  destruct (Record.birthday r) as [b|] eqn:B; [|reflexivity].
  destruct (delta_bounds today (value b) RT (H r b Hr B)) as [[L U] [Z1 Z2]].
  rewrite (proj2 (Z.leb_le _ _) L). cbn [andb].
  destruct ((Date.month (value b) =? Date.month today)
            && (Date.day (value b) =? Date.day today)) eqn:S.
  - apply andb_true_iff in S. destruct S as [Sm Sd].
    apply Z.eqb_eq in Sm, Sd.
    assert (Z0 : Spec.delta today (value b) = 0) by (apply Z2; split; auto).
    rewrite Z0. cbn [Z.leb Z.compare].
    assert (T : Spec.rolled today (value b) = today).
    { unfold Spec.rolled, Spec.this_year. rewrite Sm, Sd.
      destruct today as [y m d]. cbn [Date.year Date.month Date.day].
      assert (F : Date.ltb (Date.mk y m d) (Date.mk y m d) = false).
      { unfold Date.ltb. cbn [Date.year Date.month Date.day].
        rewrite !Z.ltb_irrefl, !Z.eqb_refl. reflexivity. }
      rewrite F. reflexivity. }
    rewrite T. reflexivity.
  - destruct (Spec.delta today (value b) <=? 0) eqn:E; [|reflexivity].
    apply Z.leb_le in E. exfalso.
    assert (Z0 : Spec.delta today (value b) = 0) by lia.
    destruct (Z1 Z0) as [Sm Sd].
    rewrite Sm, Sd, !Z.eqb_refl in S. discriminate.
Qed.

Lemma get_upcoming_birthdays_today_example :
  AddressBook.get_upcoming_birthdays Date.FourDigitYear (Date.mk 2023 5 10)
    [(lit "Ann", Record.mk (mkField (lit "Ann")) []
                   (Some (mkField (Date.mk 1990 5 10))));
     (lit "Bob", Record.mk (mkField (lit "Bob")) []
                   (Some (mkField (Date.mk 1991 5 11))))] 0
  = Ok [AddressBook.mkentry (lit "Ann") (lit "2023.05.10")].
Proof.
  apply (get_upcoming_birthdays_today Date.FourDigitYear (Date.mk 2023 5 10)
           [(lit "Ann", Record.mk (mkField (lit "Ann")) []
                          (Some (mkField (Date.mk 1990 5 10))));
            (lit "Bob", Record.mk (mkField (lit "Bob")) []
                          (Some (mkField (Date.mk 1991 5 11))))]).
  - repeat split; vm_compute; discriminate.
  - intros r b [<-|[<-|[]]]; intros [= <-];
      repeat split; vm_compute; discriminate.
Defined.

Lemma visit_Ok (libc : Date.year_style) (today : Date.t) (days : Z)
    (acc acc' : list AddressBook.entry) (r : Record.t) (b : Birthday.t) :
  Record.birthday r = Some b ->
  AddressBook.visit libc today days acc r = Ok acc' ->
  Spec.rolls today (value b)
  /\ acc' = acc ++ (if (0 <=? Spec.delta today (value b))
                       && (Spec.delta today (value b) <=? days)
                    then [AddressBook.mkentry (value (Record.name r))
                            (Date.strftime_Ymd libc
                               (Spec.rolled today (value b)))]
                    else []).
Proof.
  intros B. unfold AddressBook.visit, Date.replace_year. rewrite B.
  unfold Date.new at 1.
  destruct (Date.check_date_fields (Date.year today) (Date.month (value b))
              (Date.day (value b))) eqn:C1; [|discriminate].
  apply check_date_fields_real in C1. cbn [Py.bind].
  unfold Spec.rolls, Spec.delta, Spec.rolled.
  fold (Spec.this_year today (value b)).
  destruct (Date.ltb (Spec.this_year today (value b)) today).
  - cbn [Spec.this_year Date.month Date.day]. unfold Date.new.
    destruct (Date.check_date_fields (Date.year today + 1)
                (Date.month (value b)) (Date.day (value b))) eqn:C2;
      [|discriminate].
    apply check_date_fields_real in C2. cbn [Py.bind]. unfold Date.sub_days.
    destruct ((0 <=? _) && _); intros [= <-];
      (split; [split; assumption|]); [reflexivity|].
    symmetry. apply app_nil_r.
  - cbn [Py.bind]. unfold Date.sub_days.
    destruct ((0 <=? _) && _); intros [= <-];
      (split; [split; assumption|]); [reflexivity|].
    symmetry. apply app_nil_r.
Qed.

(** With a negative window the query lists nobody, whatever the book
    holds: it returns the empty list, unless it raises. *)
Theorem get_upcoming_birthdays_negative_window
    (libc : Date.year_style) (today : Date.t) (days : Z)
    (book : AddressBook.t) :
  Spec.real_date today -> days < 0 ->
  AddressBook.get_upcoming_birthdays libc today book days = Ok []
  \/ AddressBook.get_upcoming_birthdays libc today book days
     = Raise ValueError.
Proof.
  intros RT D. unfold AddressBook.get_upcoming_birthdays.
  induction (Dict.values book) as [|r records IH]; [left; reflexivity|].
  cbn [AddressBook.visit_all].
  destruct (AddressBook.visit libc today days [] r) as [acc|e] eqn:V;
    cbn [Py.bind].
  - assert (A : acc = []).
    { destruct (Record.birthday r) as [b|] eqn:B.
      - destruct (visit_Ok libc today days [] acc r b B V) as [R ->].
        destruct (delta_bounds today (value b) RT R) as [[L _] _].
        assert (F : (Spec.delta today (value b) <=? days) = false)
          by (apply Z.leb_gt; lia).
        rewrite F, andb_false_r. reflexivity.
      - unfold AddressBook.visit in V. rewrite B in V. congruence. }
    rewrite A. exact IH.
  - right. apply visit_raises_ValueError in V. subst e. reflexivity.
Qed.

Lemma get_upcoming_birthdays_negative_window_example :
  AddressBook.get_upcoming_birthdays Date.FourDigitYear (Date.mk 2023 5 10)
    [(lit "Ann", Record.mk (mkField (lit "Ann")) []
                   (Some (mkField (Date.mk 1990 5 10))))] (-1)
  = Ok []
  \/ AddressBook.get_upcoming_birthdays Date.FourDigitYear
       (Date.mk 2023 5 10)
       [(lit "Ann", Record.mk (mkField (lit "Ann")) []
                      (Some (mkField (Date.mk 1990 5 10))))] (-1)
     = Raise ValueError.
Proof.
  apply (get_upcoming_birthdays_negative_window Date.FourDigitYear
           (Date.mk 2023 5 10) (-1)
           [(lit "Ann", Record.mk (mkField (lit "Ann")) []
                          (Some (mkField (Date.mk 1990 5 10))))]).
  - repeat split; vm_compute; discriminate.
  - lia.
Defined.

End DayCounts.

(** ** Splitting a line *)

Lemma split_from_app_word (w s acc : str) :
  Forall (fun c => Whitespace.isspace_char c = false) w ->
  Whitespace.split_from (w ++ s) acc = Whitespace.split_from s (acc ++ w).
Proof.
  intros F. revert acc. induction F as [|c w Hc F IH]; intros acc.
  - rewrite app_nil_r. reflexivity.
  - cbn [app Whitespace.split_from]. rewrite Hc, IH, <- app_assoc.
    reflexivity.
Qed.

Lemma split_from_space (a b w : str) (c : char) :
  Whitespace.isspace_char c = true ->
  Whitespace.split_from (a ++ c :: b) w
  = Whitespace.split_from a w ++ Whitespace.split b.
Proof.
  intros Hc. revert w. induction a as [|x a IH]; intros w.
  - cbn [app Whitespace.split_from]. rewrite Hc. destruct w; reflexivity.
  - cbn [app Whitespace.split_from].
    destruct (Whitespace.isspace_char x); [|apply IH].
    destruct w; [apply IH|]. rewrite IH. reflexivity.
Qed.

Lemma split_word (w : str) : Inv.word w -> Whitespace.split w = [w].
Proof.
  intros [N F]. unfold Whitespace.split.
  rewrite <- (app_nil_r w) at 1. rewrite (split_from_app_word w [] [] F).
  cbn [app Whitespace.split_from]. destruct w; [contradiction|reflexivity].
Qed.

Lemma split_blank (b : str) : Inv.blank b -> Whitespace.split b = [].
Proof.
  unfold Whitespace.split. induction 1 as [|c b Hc F IH]; [reflexivity|].
  cbn [Whitespace.split_from]. rewrite Hc. exact IH.
Qed.

Lemma split_blank_left (b s : str) :
  Inv.blank b -> Whitespace.split (b ++ s) = Whitespace.split s.
Proof.
  unfold Whitespace.split. induction 1 as [|c b Hc F IH]; [reflexivity|].
  cbn [app Whitespace.split_from]. rewrite Hc. exact IH.
Qed.

Lemma split_blank_right (b s : str) :
  Inv.blank b -> Whitespace.split (s ++ b) = Whitespace.split s.
Proof.
  intros [|c b' Hc F]; [rewrite app_nil_r; reflexivity|].
  unfold Whitespace.split at 1. rewrite (split_from_space s b' [] c Hc).
  rewrite (split_blank b' F), app_nil_r. reflexivity.
Qed.

Lemma lstrip_blank (s : str) :
  exists b, Inv.blank b /\ s = b ++ Whitespace.lstrip s.
Proof.
  induction s as [|c s IH]; [exists []; split; [constructor|reflexivity]|].
  cbn [Whitespace.lstrip].
  destruct (Whitespace.isspace_char c) eqn:E.
  - destruct IH as (b & B & Hs). exists (c :: b).
    split; [constructor; assumption|]. cbn [app]. rewrite <- Hs. reflexivity.
  - exists []. split; [constructor|reflexivity].
Qed.

Lemma rstrip_blank (s : str) :
  exists b, Inv.blank b /\ s = Whitespace.rstrip s ++ b.
Proof.
  unfold Whitespace.rstrip.
  destruct (lstrip_blank (rev s)) as (b & B & Hs).
  exists (rev b). split.
  - apply Forall_rev, B.
  - rewrite <- rev_app_distr, <- Hs, rev_involutive. reflexivity.
Qed.

Lemma split_strip (s : str) :
  Whitespace.split (Whitespace.strip s) = Whitespace.split s.
Proof.
  unfold Whitespace.strip.
  destruct (lstrip_blank s) as (b1 & B1 & H1).
  destruct (rstrip_blank (Whitespace.lstrip s)) as (b2 & B2 & H2).
  rewrite H1 at 2. rewrite (split_blank_left b1 _ B1).
  rewrite H2 at 2. rewrite (split_blank_right b2 _ B2). reflexivity.
Qed.

Lemma split_from_words (s w : str) :
  Forall (fun c => Whitespace.isspace_char c = false) w ->
  Forall Inv.word (Whitespace.split_from s w).
Proof.
  revert w. induction s as [|c s IH]; intros w F.
  - cbn [Whitespace.split_from]. destruct w as [|x w]; [constructor|].
    constructor; [split; [discriminate | exact F] | constructor].
  - cbn [Whitespace.split_from].
    destruct (Whitespace.isspace_char c) eqn:E.
    + destruct w as [|x w]; [apply IH; constructor|].
      constructor; [split; [discriminate | exact F] | apply IH; constructor].
    + apply IH. apply Forall_app. split; [exact F | repeat constructor; exact E].
Qed.

Lemma split_join (ws : list str) :
  Forall Inv.word ws -> Whitespace.split (join (lit " ") ws) = ws.
Proof.
  induction 1 as [|w ws Hw F IH]; [reflexivity|].
  destruct ws as [|w' ws'].
  - cbn [join]. apply split_word, Hw.
  - change (join (lit " ") (w :: w' :: ws'))
      with (w ++ 32 :: join (lit " ") (w' :: ws')).
    unfold Whitespace.split at 1.
    rewrite (split_from_space w _ [] 32 eq_refl).
    fold (Whitespace.split w). rewrite (split_word w Hw), IH. reflexivity.
Qed.

Section ParseInput.

Variable lower : str -> str.

(** The arguments [parse_input] returns are words: none is empty and
    none holds a whitespace character; so no name or phone that reaches a
    handler from the command line does. *)
Theorem parse_input_args_are_words (user_input : str) :
  Forall Inv.word (snd (Repl.parse_input lower user_input)).
Proof.
  unfold Repl.parse_input. cbn [snd]. rewrite split_strip.
  pose proof (split_from_words user_input [] (Forall_nil _)) as F.
  fold (Whitespace.split user_input) in F.
  destruct (Whitespace.split user_input); [constructor|].
  inversion F; assumption.
Qed.

(** Words joined by single spaces are read back as they are: the first
    one lower-cased as the command, the others unchanged as the
    arguments; for a command word of characters below 128 the
    lower-casing is that of the letters A-Z. *)
Theorem parse_input_of_joined_words (w : str) (ws : list str) :
  Forall Inv.word (w :: ws) ->
  Repl.parse_input lower (join (lit " ") (w :: ws)) = (lower w, ws)
  /\ (Inv.lower_on_ascii lower -> Forall (fun c => c < 128) w ->
      Repl.parse_input lower (join (lit " ") (w :: ws))
      = (Inv.ascii_lower w, ws)).
Proof.
  intros F.
  assert (P : Repl.parse_input lower (join (lit " ") (w :: ws)) = (lower w, ws)).
  { unfold Repl.parse_input. rewrite split_strip, (split_join _ F).
    reflexivity. }
  split; [exact P|]. intros L A. rewrite P, (L w A). reflexivity.
Qed.

(** Whitespace before and after the line does not matter, and a line of
    whitespace only, or an empty one, gives the empty command and no
    arguments. *)
Theorem parse_input_ignores_padding (b1 b2 user_input : str) :
  Inv.blank b1 -> Inv.blank b2 ->
  Repl.parse_input lower (b1 ++ user_input ++ b2)
  = Repl.parse_input lower user_input
  /\ Repl.parse_input lower b1 = (lit "", []).
Proof.
  intros B1 B2. unfold Repl.parse_input. rewrite !split_strip.
  rewrite (split_blank_left b1 _ B1), (split_blank_right b2 _ B2).
  rewrite (split_blank b1 B1). split; reflexivity.
Qed.

End ParseInput.

Lemma parse_input_of_joined_words_example :
  Repl.parse_input Inv.ascii_lower (lit "ADD Bob 1234567890")
  = (lit "add", [lit "Bob"; lit "1234567890"]).
Proof.
  apply (proj2 (parse_input_of_joined_words Inv.ascii_lower (lit "ADD")
                  [lit "Bob"; lit "1234567890"]
                  ltac:(repeat constructor; vm_compute; discriminate))).
  - intros s _. reflexivity.
  - repeat constructor; vm_compute; reflexivity.
Defined.

Lemma parse_input_ignores_padding_example :
  Repl.parse_input Inv.ascii_lower (lit "  " ++ lit "phone Bob" ++ [9; 10])
  = Repl.parse_input Inv.ascii_lower (lit "phone Bob")
  /\ Repl.parse_input Inv.ascii_lower (lit "  ") = (lit "", []).
Proof.
  apply (parse_input_ignores_padding Inv.ascii_lower (lit "  ") [9; 10]
           (lit "phone Bob")); repeat constructor.
Defined.

(** ** Sessions *)

Lemma dispatch_closes (libc : Date.year_style) (today : Date.t)
    (command : str) (args : list str) (book : AddressBook.t) :
  if str_eqb command (lit "close") || str_eqb command (lit "exit")
  then dispatch libc today command args book = Closed book
  else exists line book',
         dispatch libc today command args book = Printed line book'.
Proof.
  unfold dispatch, printed.
  destruct (str_eqb command (lit "close") || str_eqb command (lit "exit"));
    [reflexivity|].
  repeat match goal with
         | |- context [if ?b then _ else _] => destruct b
         end; eauto.
Qed.

Section Sessions.

Variable lower : str -> str.
Variable libc : Date.year_style.

Lemma loop_outcome (inputs : list (Date.t * str)) (book : AddressBook.t) :
  Repl.saved (Repl.loop lower libc inputs book)
  = (if existsb (fun i => Inv.closes lower (snd i)) inputs
     then Some (Inv.turns lower libc inputs book) else None)
  /\ Repl.ended (Repl.loop lower libc inputs book)
     = (if existsb (fun i => Inv.closes lower (snd i)) inputs
        then Repl.Finished else Repl.EndOfInput).
Proof.
  revert book. induction inputs as [|[today s] inputs IH]; intros book.
  - split; reflexivity.
  - cbn [Repl.loop Inv.turns existsb snd]. unfold Inv.closes at 1 3.
    destruct (Repl.parse_input lower s) as [c a] eqn:P. cbn [fst snd].
    pose proof (dispatch_closes libc today c a book) as D.
    destruct (str_eqb c (lit "close") || str_eqb c (lit "exit")).
    + rewrite D. split; reflexivity.
    + destruct D as (line & book' & D). rewrite D.
      cbn [orb Repl.saved Repl.ended]. apply IH.
Qed.

Lemma existsb_none {A} (p : A -> bool) (l : list A) :
  (forall a, In a l -> p a = false) -> existsb p l = false.
Proof.
  intros H. destruct (existsb p l) eqn:E; [|reflexivity].
  apply existsb_exists in E. destruct E as (a & Ha & Hp).
  rewrite (H a Ha) in Hp. discriminate.
Qed.

(** A session whose input ends without a close or exit command ends by
    the [EOFError] of [input] and saves nothing: the pickle file is as
    it was, whatever the commands did to the book. *)
Theorem main_without_close_saves_nothing (f : Repl.file)
    (inputs : list (Date.t * str)) :
  (forall i, In i inputs -> Inv.closes lower (snd i) = false) ->
  snd (fst (Repl.main lower libc f inputs)) = f
  /\ snd (Repl.main lower libc f inputs) = Repl.EndOfInput.
Proof.
  intros H. unfold Repl.main. cbn [fst snd].
  destruct (loop_outcome inputs (Repl.load_data f)) as [S E].
  rewrite S, E, (existsb_none _ _ H). split; reflexivity.
Qed.

Lemma turns_until_close (pre post : list (Date.t * str)) (today : Date.t)
    (s : str) (book : AddressBook.t) :
  (forall i, In i pre -> Inv.closes lower (snd i) = false) ->
  Inv.closes lower s = true ->
  Inv.turns lower libc (pre ++ (today, s) :: post) book
  = Inv.turns lower libc pre book.
Proof.
  intros H C. revert book. induction pre as [|[t x] pre IH]; intros book.
  - cbn [app Inv.turns]. unfold Inv.closes in C.
    pose proof (dispatch_closes libc today
                  (fst (Repl.parse_input lower s))
                  (snd (Repl.parse_input lower s)) book) as D.
    rewrite C in D. rewrite D. reflexivity.
  - cbn [app Inv.turns].
    pose proof (H (t, x) (or_introl eq_refl)) as N. unfold Inv.closes in N.
    cbn [snd] in N.
    pose proof (dispatch_closes libc t
                  (fst (Repl.parse_input lower x))
                  (snd (Repl.parse_input lower x)) book) as D.
    rewrite N in D. destruct D as (line & book' & D). rewrite D.
    apply IH. intros i Hi. apply H. right. exact Hi.
Qed.

Lemma existsb_close (pre post : list (Date.t * str)) (today : Date.t)
    (s : str) :
  Inv.closes lower s = true ->
  existsb (fun i => Inv.closes lower (snd i)) (pre ++ (today, s) :: post)
  = true.
Proof.
  intros C. apply existsb_exists. exists (today, s).
  split; [apply in_elt | exact C].
Qed.

(** A session runs up to the first close or exit command: the book
    saved is the loaded one after the turns before that command, the
    session ends normally, and nothing typed afterwards is read. *)
Theorem main_stops_at_first_close (f : Repl.file)
    (pre post : list (Date.t * str)) (today : Date.t) (s : str) :
  (forall i, In i pre -> Inv.closes lower (snd i) = false) ->
  Inv.closes lower s = true ->
  Repl.main lower libc f (pre ++ (today, s) :: post)
  = Repl.main lower libc f (pre ++ [(today, s)])
  /\ snd (fst (Repl.main lower libc f (pre ++ (today, s) :: post)))
     = Some (Inv.turns lower libc pre (Repl.load_data f))
  /\ snd (Repl.main lower libc f (pre ++ (today, s) :: post))
     = Repl.Finished.
Proof.
  intros H C.
  assert (L : Repl.loop lower libc (pre ++ (today, s) :: post)
                (Repl.load_data f)
              = Repl.loop lower libc (pre ++ [(today, s)]) (Repl.load_data f)).
  { generalize (Repl.load_data f). induction pre as [|[t x] pre IH];
      intros book.
    - cbn [app Repl.loop]. unfold Inv.closes in C.
      destruct (Repl.parse_input lower s) as [c a]. cbn [fst] in C.
      pose proof (dispatch_closes libc today c a book) as D.
      rewrite C in D. rewrite D. reflexivity.
    - cbn [app Repl.loop].
      destruct (Repl.parse_input lower x) as [c a].
      destruct (dispatch libc t c a book); [|reflexivity].
      rewrite IH; [reflexivity|]. intros i Hi. apply H. right. exact Hi. }
  split; [unfold Repl.main; rewrite L; reflexivity|].
  unfold Repl.main. cbn [fst snd].
  destruct (loop_outcome (pre ++ (today, s) :: post) (Repl.load_data f))
    as [S E].
  rewrite S, E, (existsb_close pre post today s C).
  rewrite (turns_until_close pre post today s _ H C).
  split; reflexivity.
Qed.

Lemma main_saved_at_close (f : Repl.file) (pre : list (Date.t * str))
    (today : Date.t) (s : str) :
  (forall i, In i pre -> Inv.closes lower (snd i) = false) ->
  Inv.closes lower s = true ->
  snd (fst (Repl.main lower libc f (pre ++ [(today, s)])))
  = Some (Inv.turns lower libc pre (Repl.load_data f)).
Proof.
  intros H C. unfold Repl.main. cbn [fst snd].
  destruct (loop_outcome (pre ++ [(today, s)]) (Repl.load_data f)) as [S _].
  rewrite S, (existsb_close pre [] today s C).
  rewrite (turns_until_close pre [] today s _ H C). reflexivity.
Qed.

Lemma turns_app (pre rest : list (Date.t * str)) (book : AddressBook.t) :
  (forall i, In i pre -> Inv.closes lower (snd i) = false) ->
  Inv.turns lower libc (pre ++ rest) book
  = Inv.turns lower libc rest (Inv.turns lower libc pre book).
Proof.
  intros H. revert book. induction pre as [|[t x] pre IH]; intros book;
    [reflexivity|].
  cbn [app Inv.turns].
  pose proof (H (t, x) (or_introl eq_refl)) as N. unfold Inv.closes in N.
  cbn [snd] in N.
  pose proof (dispatch_closes libc t (fst (Repl.parse_input lower x))
                (snd (Repl.parse_input lower x)) book) as D.
  rewrite N in D. destruct D as (line & book' & D). rewrite D.
  apply IH. intros i Hi. apply H. right. exact Hi.
Qed.

(** Two sessions, each closed properly, leave the pickle file as one
    session does that takes the commands of both: what the first saves
    is what the second loads. *)
Theorem main_sessions_compose (f : Repl.file)
    (pre1 pre2 : list (Date.t * str)) (t1 t2 : Date.t) (s1 s2 : str) :
  (forall i, In i pre1 -> Inv.closes lower (snd i) = false) ->
  (forall i, In i pre2 -> Inv.closes lower (snd i) = false) ->
  Inv.closes lower s1 = true -> Inv.closes lower s2 = true ->
  snd (fst (Repl.main lower libc
              (snd (fst (Repl.main lower libc f (pre1 ++ [(t1, s1)]))))
              (pre2 ++ [(t2, s2)])))
  = snd (fst (Repl.main lower libc f ((pre1 ++ pre2) ++ [(t2, s2)]))).
Proof.
  intros H1 H2 C1 C2.
  rewrite (main_saved_at_close f pre1 t1 s1 H1 C1).
  rewrite (main_saved_at_close _ pre2 t2 s2 H2 C2).
  assert (H12 : forall i, In i (pre1 ++ pre2) -> Inv.closes lower (snd i) = false).
  { intros i Hi. apply in_app_or in Hi. destruct Hi; auto. }
  rewrite (main_saved_at_close f (pre1 ++ pre2) t2 s2 H12 C2).
  rewrite (turns_app pre1 pre2 _ H1). reflexivity.
Qed.




End Sessions.

(** ** From a date to its text and back *)

Lemma dotted_exact (d : Date.t) :
  Spec.real_date d -> Spec.exact_YMD (Spec.dotted d) d.
Proof.
  intros R. pose proof (real_date_fields d R) as (By & Bm & Bd).
  destruct d as [y m dd]. cbn [Date.year Date.month Date.day] in *.
  unfold Spec.dotted, Spec.four_digits, Spec.two_digits.
  cbn [Date.year Date.month Date.day app lit map list_ascii_of_string].
  change (N_of_ascii ".") with 46.
  match goal with
  | |- Spec.exact_YMD [?y1; ?y2; ?y3; ?y4; _; ?m1; ?m2; _; ?d1; ?d2] _ =>
      replace (Date.mk y m dd)
        with (Date.mk (1000 * Spec.digit_value y1 + 100 * Spec.digit_value y2
                       + 10 * Spec.digit_value y3 + Spec.digit_value y4)
                      (10 * Spec.digit_value m1 + Spec.digit_value m2)
                      (10 * Spec.digit_value d1 + Spec.digit_value d2))%Z;
      [apply Spec.exact_YMD_intro|]
  end.
  - repeat constructor; unfold Spec.ascii_digit;
      Z.to_euclidean_division_equations; lia.
  - unfold Spec.digit_value. f_equal;
      Z.to_euclidean_division_equations; lia.
Qed.

(** A stored birthday rendered with [strftime("%Y.%m.%d")] is a text
    the Birthday constructor reads back as the same date, for years from
    1000 on and wherever the year prints in four digits. *)
Theorem Birthday_of_rendered_date (libc : Date.year_style) (d : Date.t) :
  Spec.real_date d ->
  libc = Date.FourDigitYear \/ (1000 <= Date.year d)%Z ->
  Birthday.init (Date.strftime_Ymd libc d) = Ok (mkField d).
Proof.
  intros R L. rewrite (strftime_dotted libc d R L).
  apply Birthday_init_Ok, exact_YMD_accepted; [apply dotted_exact|]; exact R.
Qed.

Lemma Birthday_of_rendered_date_example :
  Birthday.init (Date.strftime_Ymd Date.PlainYear (Date.mk 2024 2 29))
  = Ok (mkField (Date.mk 2024 2 29)).
Proof.
  apply (Birthday_of_rendered_date Date.PlainYear (Date.mk 2024 2 29)).
  - repeat split; vm_compute; discriminate.
  - right. vm_compute. discriminate.
Defined.

(** The Birthday constructor rejects every text shorter than 8 or
    longer than 10 characters, the empty one among them, and every text
    whose fifth character is not a dot. *)
Theorem Birthday_init_rejects_by_shape (s : str) :
  (length s < 8)%nat \/ (10 < length s)%nat \/ nth_error s 4 <> Some 46 ->
  Birthday.init s = Raise ValueError.
Proof.
  intros H. apply Birthday_init_Raise.
  intros (d & Y & M & D & y & m & dd & -> & HY & HM & HD & _).
  destruct HY. destruct HM; destruct HD; cbn in H;
    destruct H as [H|[H|H]]; try lia; apply H; reflexivity.
Qed.

Lemma Birthday_init_rejects_by_shape_example :
  Birthday.init (lit "24.01.05") = Raise ValueError.
Proof.
  apply (Birthday_init_rejects_by_shape (lit "24.01.05")).
  right. right. vm_compute. discriminate.
Defined.

(** ** Listing all contacts *)

Lemma join_snoc (sep : str) (l : list str) (x : str) :
  join sep (l ++ [x])
  = match l with
    | [] => x
    | _ :: _ => join sep l ++ sep ++ x
    end.
Proof.
  induction l as [|a l IH]; [reflexivity|].
  destruct l as [|b l]; [reflexivity|].
  change (join sep ((a :: b :: l) ++ [x]))
    with (a ++ sep ++ join sep ((b :: l) ++ [x])).
  rewrite IH. change (join sep (a :: b :: l)) with (a ++ sep ++ join sep (b :: l)).
  rewrite <- !app_assoc. reflexivity.
Qed.

(** The all command after a contact was added under a new name: the
    lines printed for the book before, then the summary of the new
    contact as the last line; the new contact alone if the book was
    empty. *)
Theorem show_all_contacts_after_new_contact (name phone : str)
    (args : list str) (book : AddressBook.t) :
  Dict.get book name = None ->
  Phone.validate_phone phone = true ->
  fst (input_error show_all_contacts args
         (snd (input_error add_contact [name; phone] book)))
  = match book with
    | [] => lit "Contact name: " ++ name ++ lit ", phones: " ++ phone
            ++ lit ", birthday: No birthday"
    | _ :: _ =>
        fst (input_error show_all_contacts args book) ++ [10]
        ++ lit "Contact name: " ++ name ++ lit ", phones: " ++ phone
        ++ lit ", birthday: No birthday"
    end.
Proof.
  intros G V.
  rewrite (input_error_Ok _ _ _ _ _ (add_contact_effect name phone [] book V)).
  rewrite G. cbn [snd].
  assert (S : forall b : AddressBook.t,
             b <> [] ->
             fst (input_error show_all_contacts args b)
             = join [10] (map to_str (map snd b))).
  { intros [|kr b] N; [contradiction | reflexivity]. }
  rewrite S by (destruct book; discriminate).
  rewrite !map_app. cbn [map]. rewrite join_snoc.
  destruct book as [|kr book]; [reflexivity|].
  rewrite S by discriminate. reflexivity.
Qed.

Lemma show_all_contacts_after_new_contact_example :
  fst (input_error show_all_contacts []
         (snd (input_error add_contact [lit "Bob"; lit "1234567890"]
                 [(lit "Ann", Record.init (lit "Ann"))])))
  = lit "Contact name: Ann, phones: , birthday: No birthday" ++ [10]
    ++ lit "Contact name: Bob, phones: 1234567890, birthday: No birthday".
Proof.
  apply (show_all_contacts_after_new_contact (lit "Bob") (lit "1234567890")
           [] [(lit "Ann", Record.init (lit "Ann"))]); reflexivity.
Defined.

(** ** The birthdays command beside a 29 February *)

Lemma leap_day_breaks_query (libc : Date.year_style) (today : Date.t)
    (days : Z) (book : AddressBook.t) (r : Record.t) (y : Z) :
  In r (Dict.values book) ->
  Record.birthday r = Some (mkField (Date.mk y 2 29)) ->
  Date.is_leap (Date.year today) = false ->
  AddressBook.get_upcoming_birthdays libc today book days = Raise ValueError.
Proof.
  intros HI HB L. unfold AddressBook.get_upcoming_birthdays.
  apply (visit_all_raises libc today days _ r HI). intros acc.
  unfold AddressBook.visit, Date.replace_year. rewrite HB.
  cbn [value Date.month Date.day].
  rewrite (leap_day_missing _ L). reflexivity.
Qed.

(** In a year that is not a leap year, the birthdays command on a book
    that holds a 29 February birthday answers with the text that asks
    for name and phone, for the whole book, and leaves the book as it
    is. *)
Theorem birthdays_beside_leap_day (libc : Date.year_style) (today : Date.t)
    (args : list str) (book : AddressBook.t) (r : Record.t) (y : Z) :
  In r (Dict.values book) ->
  Record.birthday r = Some (mkField (Date.mk y 2 29)) ->
  Date.is_leap (Date.year today) = false ->
  input_error (birthdays libc today) args book
  = (lit "Give me name and phone please.", book).
Proof.
  intros HI HB L. unfold input_error, birthdays, State.bind, State.get,
    State.lift.
  rewrite (leap_day_breaks_query libc today 7 book r y HI HB L). reflexivity.
Qed.

Lemma birthdays_beside_leap_day_example :
  input_error (birthdays Date.FourDigitYear (Date.mk 2023 5 10)) []
    [(lit "Ann", Record.mk (mkField (lit "Ann")) []
                   (Some (mkField (Date.mk 1990 5 12))));
     (lit "Bob", Record.mk (mkField (lit "Bob")) []
                   (Some (mkField (Date.mk 2000 2 29))))]
  = (lit "Give me name and phone please.",
     [(lit "Ann", Record.mk (mkField (lit "Ann")) []
                    (Some (mkField (Date.mk 1990 5 12))));
      (lit "Bob", Record.mk (mkField (lit "Bob")) []
                    (Some (mkField (Date.mk 2000 2 29))))]).
Proof.
  apply (birthdays_beside_leap_day Date.FourDigitYear (Date.mk 2023 5 10) []
           _ (Record.mk (mkField (lit "Bob")) []
                (Some (mkField (Date.mk 2000 2 29)))) 2000).
  - simpl. right. left. reflexivity.
  - reflexivity.
  - reflexivity.
Defined.

(** ** Sessions, on examples *)

Lemma main_without_close_saves_nothing_example :
  snd (fst (Repl.main Inv.ascii_lower Date.FourDigitYear None
              [(Date.mk 2024 1 1, lit "add Bob 1234567890")]))
  = None
  /\ snd (Repl.main Inv.ascii_lower Date.FourDigitYear None
            [(Date.mk 2024 1 1, lit "add Bob 1234567890")])
     = Repl.EndOfInput.
Proof.
  apply (main_without_close_saves_nothing Inv.ascii_lower Date.FourDigitYear
           None [(Date.mk 2024 1 1, lit "add Bob 1234567890")]).
  intros i [<-|[]]. reflexivity.
Defined.

Lemma main_stops_at_first_close_example :
  Repl.main Inv.ascii_lower Date.FourDigitYear None
    ([(Date.mk 2024 1 1, lit "add Bob 1234567890")]
     ++ (Date.mk 2024 1 1, lit "EXIT")
     :: [(Date.mk 2024 1 2, lit "add Ann 1111111111")])
  = Repl.main Inv.ascii_lower Date.FourDigitYear None
      ([(Date.mk 2024 1 1, lit "add Bob 1234567890")]
       ++ [(Date.mk 2024 1 1, lit "EXIT")])
  /\ snd (fst (Repl.main Inv.ascii_lower Date.FourDigitYear None
                 ([(Date.mk 2024 1 1, lit "add Bob 1234567890")]
                  ++ (Date.mk 2024 1 1, lit "EXIT")
                  :: [(Date.mk 2024 1 2, lit "add Ann 1111111111")])))
     = Some (Inv.turns Inv.ascii_lower Date.FourDigitYear
               [(Date.mk 2024 1 1, lit "add Bob 1234567890")]
               (Repl.load_data None))
  /\ snd (Repl.main Inv.ascii_lower Date.FourDigitYear None
            ([(Date.mk 2024 1 1, lit "add Bob 1234567890")]
             ++ (Date.mk 2024 1 1, lit "EXIT")
             :: [(Date.mk 2024 1 2, lit "add Ann 1111111111")]))
     = Repl.Finished.
Proof.
  apply (main_stops_at_first_close Inv.ascii_lower Date.FourDigitYear None
           [(Date.mk 2024 1 1, lit "add Bob 1234567890")]
           [(Date.mk 2024 1 2, lit "add Ann 1111111111")]
           (Date.mk 2024 1 1) (lit "EXIT")).
  - intros i [<-|[]]. reflexivity.
  - reflexivity.
Defined.

Lemma main_sessions_compose_example :
  snd (fst (Repl.main Inv.ascii_lower Date.FourDigitYear
              (snd (fst (Repl.main Inv.ascii_lower Date.FourDigitYear None
                           ([(Date.mk 2024 1 1, lit "add Bob 1234567890")]
                            ++ [(Date.mk 2024 1 1, lit "close")]))))
              ([(Date.mk 2024 1 2, lit "add Bob 2222222222")]
               ++ [(Date.mk 2024 1 2, lit "exit")])))
  = snd (fst (Repl.main Inv.ascii_lower Date.FourDigitYear None
                (([(Date.mk 2024 1 1, lit "add Bob 1234567890")]
                  ++ [(Date.mk 2024 1 2, lit "add Bob 2222222222")])
                 ++ [(Date.mk 2024 1 2, lit "exit")]))).
Proof.
  apply (main_sessions_compose Inv.ascii_lower Date.FourDigitYear None
           [(Date.mk 2024 1 1, lit "add Bob 1234567890")]
           [(Date.mk 2024 1 2, lit "add Bob 2222222222")]
           (Date.mk 2024 1 1) (Date.mk 2024 1 2) (lit "close") (lit "exit")).
  - intros i [<-|[]]. reflexivity.
  - intros i [<-|[]]. reflexivity.
  - reflexivity.
  - reflexivity.
Defined.

